(** * Verification of the tutorial runner and of the browser test page

    Two pieces of the repository carry control flow of their own:

    - the tutorial runner, the bash script behind [yarn tutorials], which
      parses [--web], [--rust], [--list], validates the requested names
      against fixed catalogs, runs the Playwright suite once and every rust
      tutorial in a freshly named run directory with retries, and finally
      reports the collected failures;
    - the Next.js page [web-client/app/page.tsx], whose [runTutorial]
      publishes the state of each tutorial in [window.__tutorialStatus], and
      [web-client/playwright.config.ts], which configures the suite.

    Both are embedded below as executable Rocq functions.  External commands
    ([date], [cargo], [yarn playwright], the file system) are oracles of a
    [World] record; what the script does to the outside is recorded in a
    trace of [Event]s, and what it prints in a list of [Line]s. *)

From Stdlib Require Import ZArith String Ascii List Lia Bool FunInd.
From Stdlib Require Import DecimalString DecimalFacts DecimalNat DecimalPos.
From stdpp Require Import gmap strings list.

Import ListNotations.
Local Open Scope string_scope.
Local Open Scope list_scope.

(** ** Words of the shell: decimal rendering, joining and splitting *)

Module Word.

(** [$((n))] or ["$n"] for a counter: the decimal digits of [n]. *)
Definition dec (n : nat) : string := NilEmpty.string_of_uint (Nat.to_uint n).

(** The decimal numeral of an integer, with a minus sign when negative. *)
Definition dec_Z (z : Z) : string := NilEmpty.string_of_int (Z.to_int z).

Definition is_digit (c : ascii) : bool :=
  match Ascii.is_nat c with Some _ => true | None => false end.

Fixpoint all_digits (s : string) : bool :=
  match s with
  | "" => true
  | String c s' => is_digit c && all_digits s'
  end.

(** The longest suffix of [s] made of digits only. *)
Fixpoint trailing_digits (s : string) : string :=
  match s with
  | "" => ""
  | String c s' => if is_digit c && all_digits s' then s else trailing_digits s'
  end.

(** ["${array[*]}"] under a given first character of [IFS]. *)
Definition join (sep : string) (items : list string) : string :=
  String.concat sep items.

(** [[[ "$word" == prefix* ]]]. *)
Definition starts_with (p s : string) : bool := String.prefix p s.

(** [${word#prefix}] for a word known to start with [prefix]. *)
Definition strip_prefix (p s : string) : string :=
  String.substring (String.length p) (String.length s - String.length p) s.

Definition newline : ascii := "010"%char.

(** A here-string is read up to its first newline. *)
Fixpoint first_line (s : string) : string :=
  match s with
  | "" => ""
  | String c s' => if Ascii.eqb c newline then "" else String c (first_line s')
  end.

(** The fields of [s] delimited by the single character [sep]. *)
Fixpoint fields (sep : ascii) (s : string) : list string :=
  match s with
  | "" => [""]
  | String c s' =>
      if Ascii.eqb c sep then "" :: fields sep s'
      else match fields sep s' with
           | [] => [String c ""]
           | f :: fs => String c f :: fs
           end
  end.

Definition nonempty (s : string) : bool := negb (String.eqb s "").

End Word.

(** ** The tutorial runner script

    The script runs under [set -euo pipefail].  The model follows it command
    by command; [echo], [mkdir -p] and [tee] are taken to succeed.
    [TUTORIAL_RETRIES] can hold any word: the retry loop compares its attempt
    counter with that word through the arithmetic of the shell, which reads
    an integer constant in decimal, or in octal after a leading zero, wraps
    around at 64 bits, fails on a malformed constant, and takes any other
    word for an expression. *)

Module Shell.
Import Word.

(** *** Catalogs (the four arrays at the top of the script) *)

Definition WEB_EXAMPLES : list string :=
  [ "createMintConsume"; "multiSendWithDelegatedProver";
    "incrementCounterContract"; "unauthenticatedNoteTransfer";
    "foreignProcedureInvocation" ].

Definition WEB_SKIPPED : list string :=
  [ "incrementCounterContract"; "foreignProcedureInvocation" ].

Definition RUST_EXAMPLES : list string :=
  [ "counter_contract_deploy"; "counter_contract_fpi";
    "counter_contract_increment"; "create_mint_consume_send";
    "delegated_prover"; "hash_preimage_note"; "mapping_example";
    "network_notes_counter_contract"; "note_creation_in_masm";
    "oracle_data_query"; "unauthenticated_note_transfer" ].

Definition RUST_SKIPPED : list string :=
  [ "counter_contract_fpi"; "counter_contract_increment";
    "oracle_data_query" ].

(** *** The outside world *)

(** The value of an environment variable: unset, or set to a word, which
    can be empty. *)
Definition env_value : Type := option string.

Definition EnvUnset : env_value := None.
Definition EnvEmpty : env_value := Some "".

(** The variable set to the decimal numeral of [z]. *)
Definition EnvInt (z : Z) : env_value := Some (dec_Z z).

(** What the shell makes of a word it evaluates as an arithmetic
    expression: a number; an error of the expression, on which the command
    that asked for the value fails; or an unset variable, on which the whole
    script ends with status 1 under [set -u]. *)
Inductive Arith :=
| Value (v : Z)
| Invalid
| Unbound.

(** What sits at [$RUNS_DIR/masm] when the rust block starts. *)
Inductive path_kind :=
| Absent
| Symlink
| DanglingSymlink
| NotASymlink.

Record World := {
  ROOT_DIR : string;
  pid : nat;                                (* [$$] *)
  TUTORIAL_RETRIES : env_value;
  expression : string -> Arith;             (* a word that is no integer constant *)
  date : nat -> string;                     (* n-th [date +%Y%m%d-%H%M%S] *)
  playwright_status : string -> Z;          (* exit status, by [--grep] pattern *)
  cargo_clean_status : Z;
  cargo_run_status : nat -> string -> Z;    (* n-th [cargo run], by [--bin] *)
  masm_entry : path_kind
}.

Definition WEB_DIR (w : World) : string := ROOT_DIR w +:+ "/web-client".
Definition RUST_DIR (w : World) : string := ROOT_DIR w +:+ "/rust-client".
Definition RUNS_DIR (w : World) : string := RUST_DIR w +:+ "/.tutorial-runs".

(** *** What the script does and prints *)

Inductive Event :=
| EvPlaywright (cwd pattern : string)   (* yarn --cwd cwd playwright test --grep pattern *)
| EvCargoClean (manifest : string)
| EvMkdir (dir : string)                (* mkdir -p dir *)
| EvSymlink (target link : string)      (* ln -s target link *)
| EvCargoRun (bin cwd log : string)     (* (cd cwd; cargo run --bin bin) 2>&1 | tee log *)
| EvSleep (seconds : nat).

Inductive Line :=
| Out (text : string)
| Err (text : string).

Record State := {
  run_web : bool;
  run_rust : bool;
  saw_selector : bool;
  web_names : list string;
  rust_names : list string;
  failures : list string;
  output : list Line;
  trace : list Event;
  ticks : nat        (* attempts started so far: indexes [date] and [cargo run] *)
}.

Definition initial : State :=
  {| run_web := false; run_rust := false; saw_selector := false;
     web_names := []; rust_names := []; failures := [];
     output := []; trace := []; ticks := 0 |}.

Definition print (ls : list Line) (s : State) : State :=
  {| run_web := run_web s; run_rust := run_rust s; saw_selector := saw_selector s;
     web_names := web_names s; rust_names := rust_names s; failures := failures s;
     output := output s ++ ls; trace := trace s; ticks := ticks s |}.

Definition emit (es : list Event) (s : State) : State :=
  {| run_web := run_web s; run_rust := run_rust s; saw_selector := saw_selector s;
     web_names := web_names s; rust_names := rust_names s; failures := failures s;
     output := output s; trace := trace s ++ es; ticks := ticks s |}.

Definition fail_with (tag : string) (s : State) : State :=
  {| run_web := run_web s; run_rust := run_rust s; saw_selector := saw_selector s;
     web_names := web_names s; rust_names := rust_names s;
     failures := failures s ++ [tag];
     output := output s; trace := trace s; ticks := ticks s |}.

Definition tick (s : State) : State :=
  {| run_web := run_web s; run_rust := run_rust s; saw_selector := saw_selector s;
     web_names := web_names s; rust_names := rust_names s; failures := failures s;
     output := output s; trace := trace s; ticks := S (ticks s) |}.

Definition select_web (s : State) : State :=
  {| run_web := true; run_rust := run_rust s; saw_selector := true;
     web_names := web_names s; rust_names := rust_names s; failures := failures s;
     output := output s; trace := trace s; ticks := ticks s |}.

Definition select_rust (s : State) : State :=
  {| run_web := run_web s; run_rust := true; saw_selector := true;
     web_names := web_names s; rust_names := rust_names s; failures := failures s;
     output := output s; trace := trace s; ticks := ticks s |}.

Definition set_web_names (names : list string) (s : State) : State :=
  {| run_web := run_web s; run_rust := run_rust s; saw_selector := saw_selector s;
     web_names := names; rust_names := rust_names s; failures := failures s;
     output := output s; trace := trace s; ticks := ticks s |}.

Definition set_rust_names (names : list string) (s : State) : State :=
  {| run_web := run_web s; run_rust := run_rust s; saw_selector := saw_selector s;
     web_names := web_names s; rust_names := names; failures := failures s;
     output := output s; trace := trace s; ticks := ticks s |}.

Definition run_both (s : State) : State :=
  {| run_web := true; run_rust := true; saw_selector := saw_selector s;
     web_names := web_names s; rust_names := rust_names s; failures := failures s;
     output := output s; trace := trace s; ticks := ticks s |}.

(** A block of the script either ends the process ([exit n]) or falls
    through to the next command. *)
Inductive Result :=
| Exited (status : Z) (s : State)
| Running (s : State).

Definition and_then (r : Result) (k : State -> Result) : Result :=
  match r with
  | Exited c s => Exited c s
  | Running s => k s
  end.

(** *** Functions of the script *)

Definition usage : list Line :=
  [ Out "Usage: yarn tutorials [--web[=name]] [--rust[=name]] [--list]";
    Out "";
    Out "Defaults to running all web and rust tutorials.";
    Out "";
    Out "Examples:";
    Out "  yarn tutorials";
    Out "  yarn tutorials --web";
    Out "  yarn tutorials --rust";
    Out "  yarn tutorials --web=createMintConsume";
    Out "  yarn tutorials --rust=counter_contract_deploy" ].

Fixpoint contains (needle : string) (items : list string) : bool :=
  match items with
  | [] => false
  | item :: rest => if String.eqb item needle then true else contains needle rest
  end.

(** [IFS=',' read -r -a parts <<< "$value"], then the non-empty parts. *)
Definition parts_of (value : string) : list string :=
  List.filter nonempty (fields ","%char (first_line value)).

Definition add_web_names (value : string) (s : State) : State :=
  set_web_names (web_names s ++ parts_of value) s.

Definition add_rust_names (value : string) (s : State) : State :=
  set_rust_names (rust_names s ++ parts_of value) s.

(** The names of a catalog that are not skipped, in catalog order. *)
Definition defaults (catalog skipped : list string) : list string :=
  List.filter (fun name => negb (contains name skipped)) catalog.

(** [printf "  %s\n" "${names[@]}"]. *)
Definition indented (names : list string) : list Line :=
  List.map (fun name => Out ("  " +:+ name)) names.

Definition listing_of (title : string) (catalog skipped : list string) : list Line :=
  [ Out (title +:+ " tutorials (default):") ]
  ++ indented (defaults catalog skipped)
  ++ (if (0 <? List.length skipped)%nat
      then [ Out ""; Out (title +:+ " tutorials (skipped by default):") ]
           ++ indented skipped
      else []).

Definition listing : list Line :=
  listing_of "Web" WEB_EXAMPLES WEB_SKIPPED
  ++ [ Out "" ]
  ++ listing_of "Rust" RUST_EXAMPLES RUST_SKIPPED.

(** The [while [[ $# -gt 0 ]]; do case "$1" in ... esac; shift; done] loop. *)
Fixpoint parse_args (args : list string) (s : State) : Result :=
  match args with
  | [] => Running s
  | a :: rest =>
      if String.eqb a "--web" then
        match rest with
        | b :: rest' =>
            if negb (starts_with "--" b)
            then parse_args rest' (add_web_names b (select_web s))
            else parse_args rest (select_web s)
        | [] => parse_args rest (select_web s)
        end
      else if starts_with "--web=" a then
        parse_args rest (add_web_names (strip_prefix "--web=" a) (select_web s))
      else if String.eqb a "--rust" then
        match rest with
        | b :: rest' =>
            if negb (starts_with "--" b)
            then parse_args rest' (add_rust_names b (select_rust s))
            else parse_args rest (select_rust s)
        | [] => parse_args rest (select_rust s)
        end
      else if starts_with "--rust=" a then
        parse_args rest (add_rust_names (strip_prefix "--rust=" a) (select_rust s))
      else if String.eqb a "--list" then
        Exited 0 (print listing s)
      else if String.eqb a "--help" || String.eqb a "-h" then
        Exited 0 (print usage s)
      else
        Exited 1 (print (Err ("Unknown argument: " +:+ a) :: usage) s)
  end.

(** The validation loop of a block: the first name missing from the catalog
    ends the process; a skipped name only prints a notice. *)
Fixpoint validate (class : string) (catalog skipped names : list string)
    (s : State) : Result :=
  match names with
  | [] => Running s
  | name :: rest =>
      if negb (contains name catalog) then
        Exited 1 (print [ Err ("Unknown " +:+ class +:+ " tutorial: " +:+ name);
                          Err ("Available " +:+ class +:+ " tutorials: "
                               +:+ join " " catalog) ] s)
      else
        validate class catalog skipped rest
          (if contains name skipped
           then print [ Out ("Note: " +:+ name +:+
                  " is skipped by default but will run because it was explicitly requested.") ] s
           else s)
  end.

(** The names a block runs: the requested ones, or the defaults when none
    was requested. *)
Definition selection (catalog skipped requested : list string) : list string :=
  if (List.length requested =? 0)%nat then defaults catalog skipped else requested.

(** [if [[ "$run_web" -eq 1 ]]; then ... fi] *)
Definition web_block (w : World) (s : State) : Result :=
  if run_web s then
    let s := set_web_names (selection WEB_EXAMPLES WEB_SKIPPED (web_names s)) s in
    and_then (validate "web" WEB_EXAMPLES WEB_SKIPPED (web_names s) s) (fun s =>
      let web_pattern := join "|" (web_names s) in
      let s := print [ Out ("Running web tutorials: " +:+ join " " (web_names s)) ] s in
      let s := emit [ EvPlaywright (WEB_DIR w) web_pattern ] s in
      if negb (playwright_status w web_pattern =? 0)%Z
      then Running (fail_with "web" s)
      else Running s)
  else Running s.

(** *** Arithmetic of the shell *)

(** Integers are 64-bit and signed, and wrap around silently. *)
Definition wrap64 (z : Z) : Z := ((z + 2 ^ 63) mod 2 ^ 64 - 2 ^ 63)%Z.

(** The value of a string of octal digits; [None] when a digit is 8 or 9
    ("value too great for base"). *)
Fixpoint octal (digits : string) (acc : Z) : option Z :=
  match digits with
  | "" => Some acc
  | String c rest =>
      match Ascii.is_nat c with
      | Some d => if (d <? 8)%nat then octal rest (8 * acc + Z.of_nat d)%Z else None
      | None => None
      end
  end.

(** The value of a non-empty string of digits: octal when it starts with
    [0], decimal otherwise. *)
Definition magnitude (digits : string) : option Z :=
  match digits with
  | String c rest =>
      if Ascii.eqb c "0" then octal rest 0
      else option_map Z.of_uint (NilEmpty.uint_of_string digits)
  | "" => None
  end.

(** A word that is an integer constant, with or without a minus sign in
    front: its value, or the error of a malformed octal constant.  [None]
    for any other word. *)
Definition constant (word : string) : option Arith :=
  let signed (negative : bool) (digits : string) :=
    if nonempty digits && all_digits digits then
      Some match magnitude digits with
           | Some n => Value (wrap64 (if negative then - n else n))
           | None => Invalid
           end
    else None in
  match word with
  | String c rest => if Ascii.eqb c "-" then signed true rest else signed false word
  | "" => None
  end.

(** The evaluation of a word as an arithmetic expression.  A word that is
    no integer constant holds operators, other bases or names of variables:
    its evaluation is left to the world.  It is taken to be the same at every
    pass of the loop, that is, not to read or assign the variables that the
    loop changes. *)
Definition arith (w : World) (word : string) : Arith :=
  match constant word with
  | Some r => r
  | None =>
      match expression w word with
      | Value v => Value (wrap64 v)
      | r => r
      end
  end.

(** [rust_retries="${TUTORIAL_RETRIES:-3}"]: the word itself, or [3] when
    the variable is unset or empty. *)
Definition rust_retries (w : World) : string :=
  match TUTORIAL_RETRIES w with
  | Some word => if nonempty word then word else "3"
  | None => "3"
  end.

(** What the budget of attempts evaluates to. *)
Definition budget (w : World) : Arith := arith w (rust_retries w).

(** [[[ "$attempt" -ge "$rust_retries" ]]]: whether the command succeeds,
    an error of the expression making it fail; [None] when it ends the
    script.  The counter starts at 1 and is far from wrapping around. *)
Definition budget_used (w : World) (attempt : nat) : option bool :=
  match budget w with
  | Value v => Some (Z.of_nat attempt >=? v)%Z
  | Invalid => Some false
  | Unbound => None
  end.

Definition run_stamp (w : World) (now : string) (attempt : nat) : string :=
  now +:+ "-" +:+ dec (pid w) +:+ "-attempt" +:+ dec attempt.

Definition run_dir (w : World) (name now : string) (attempt : nat) : string :=
  RUNS_DIR w +:+ "/" +:+ name +:+ "-" +:+ run_stamp w now attempt.

Definition manifest (w : World) : string := RUST_DIR w +:+ "/Cargo.toml".

(** One pass of the body of [while true], up to and including the reading
    of [PIPESTATUS]. *)
Definition attempt_once (w : World) (name : string) (attempt : nat)
    (s : State) : Z * State :=
  let dir := run_dir w name (date w (ticks s)) attempt in
  let status := cargo_run_status w (ticks s) name in
  let s' := emit [ EvMkdir dir ] s in
  let s' := print [ Out ("Running rust tutorial: " +:+ name +:+ " (attempt "
                         +:+ dec attempt +:+ "/" +:+ rust_retries w +:+ ")");
                    Out ("Run directory: " +:+ dir) ] s' in
  let s' := emit [ EvCargoRun name dir (dir +:+ "/output.log") ] s' in
  let s' := print [ Out ("Output log: " +:+ dir +:+ "/output.log") ] s' in
  (status, tick s').

(** The [while true] loop of one tutorial: it is left by [break], or by
    the end of the script.  [fuel] bounds the number of passes; [None] means
    that the loop is still going after that many. *)
Fixpoint retry_loop (fuel : nat) (w : World) (name : string) (attempt : nat)
    (s : State) : option Result :=
  match fuel with
  | O => None
  | S fuel' =>
      let '(status, s) := attempt_once w name attempt s in
      if (status =? 0)%Z then Some (Running s)
      else
        match budget_used w attempt with
        | None => Some (Exited 1 s)
        | Some true => Some (Running (fail_with ("rust:" +:+ name) s))
        | Some false =>
            let s := print [ Out ("Retrying rust tutorial: " +:+ name +:+ " in 10s...") ] s in
            let s := emit [ EvSleep 10 ] s in
            retry_loop fuel' w name (attempt + 1) s
        end
  end.

(** The number of passes after which a loop started at attempt 1 has ended,
    when it ends on its budget at all: with a budget that fails to evaluate
    the loop is only left by an attempt that exits zero. *)
Definition enough (w : World) : nat :=
  match budget w with
  | Value v => S (Z.to_nat v)
  | Invalid | Unbound => 1
  end.

(** [for name in "${rust_names[@]}"; do attempt=1; while true ... done] *)
Fixpoint run_rust_tutorials (w : World) (names : list string) (s : State)
    : option Result :=
  match names with
  | [] => Some (Running s)
  | name :: rest =>
      match retry_loop (enough w) w name 1 s with
      | None => None
      | Some (Exited c s) => Some (Exited c s)
      | Some (Running s) => run_rust_tutorials w rest s
      end
  end.

(** The preparation of the runs directory; [set -e] ends the script when
    [cargo clean] or [ln -s] fails. *)
Definition prepare_runs (w : World) (s : State) : Result :=
  let s := print [ Out "Cleaning rust build artifacts before running tutorials..." ] s in
  let s := emit [ EvCargoClean (manifest w) ] s in
  if negb (cargo_clean_status w =? 0)%Z then Exited (cargo_clean_status w) s
  else
    let s := emit [ EvMkdir (RUNS_DIR w) ] s in
    let masm := RUNS_DIR w +:+ "/masm" in
    match masm_entry w with
    | NotASymlink =>
        Exited 1 (print [ Err ("Expected " +:+ masm +:+ " to be a symlink.") ] s)
    | Symlink => Running s
    | Absent => Running (emit [ EvSymlink "../../masm" masm ] s)
    | DanglingSymlink => Exited 1 (emit [ EvSymlink "../../masm" masm ] s)
    end.

(** [if [[ "$run_rust" -eq 1 ]]; then ... fi].  [None]: one of the retry
    loops is still going after [enough w] passes. *)
Definition rust_block (w : World) (s : State) : option Result :=
  if run_rust s then
    let s := set_rust_names (selection RUST_EXAMPLES RUST_SKIPPED (rust_names s)) s in
    match and_then (validate "rust" RUST_EXAMPLES RUST_SKIPPED (rust_names s) s)
                   (prepare_runs w) with
    | Exited c s => Some (Exited c s)
    | Running s => run_rust_tutorials w (rust_names s) s
    end
  else Some (Running s).

(** The last command of the script. *)
Definition aggregate (s : State) : Z * State :=
  if (0 <? List.length (failures s))%nat
  then (1%Z, print ([ Out ""; Out "Failures:" ] ++ indented (failures s)) s)
  else (0%Z, s).

(** What an invocation leaves behind. *)
Record Outcome := {
  exit_status : Z;
  printed : list Line;
  performed : list Event;
  recorded : list string
}.

Definition finish (c : Z) (s : State) : Outcome :=
  {| exit_status := c; printed := output s; performed := trace s; recorded := failures s |}.

(** Everything before the last command: argument parsing, the web block and
    the rust block. *)
Definition run_blocks (w : World) (args : list string) : option Result :=
  match parse_args args initial with
  | Exited c s => Some (Exited c s)
  | Running s =>
      let s := if negb (saw_selector s) then run_both s else s in
      match web_block w s with
      | Exited c s => Some (Exited c s)
      | Running s => rust_block w s
      end
  end.

(** The whole script.  [None]: a retry loop whose budget does not evaluate
    goes on after a failed first attempt.  The script then ends only if a
    later attempt exits zero, and never if none does; [retry_loop] follows
    such a loop for any number of passes, this function does not. *)
Definition main (w : World) (args : list string) : option Outcome :=
  match run_blocks w args with
  | None => None
  | Some (Exited c s) => Some (finish c s)
  | Some (Running s) => let '(c, s) := aggregate s in Some (finish c s)
  end.

(** The working directories of the attempts, in order. *)
Definition run_dirs_of (es : list Event) : list string :=
  List.flat_map (fun e => match e with EvCargoRun _ dir _ => [dir] | _ => [] end) es.

(** The directories [mkdir -p] was called for, in order. *)
Definition created_dirs (es : list Event) : list string :=
  List.flat_map (fun e => match e with EvMkdir dir => [dir] | _ => [] end) es.

(** The example processes started: rust binaries and the browser suite. *)
Definition is_example_run (e : Event) : bool :=
  match e with
  | EvCargoRun _ _ _ | EvPlaywright _ _ => true
  | _ => false
  end.

End Shell.

(** ** The Playwright configuration *)

Module PlaywrightConfig.
Import Shell.

Definition tutorialTimeoutMs : Z := 10 * 60 * 1000.





End PlaywrightConfig.

(** ** The browser test page *)

Module Page.

Inductive TutorialState := running | passed | failed.

Record TutorialStatus := { state : TutorialState; error : option string }.

(** A value whose text the page can compute: an instance of [Error] with a
    name and a message that are strings, or any other value, of which the
    page only uses the truthiness and [String(value)]. *)
Inductive js_value :=
| JsError (name message : string)
| JsOther (truthy : bool) (text : string).

(** Anything that can be thrown or reject a promise: a value as above, or a
    value for which computing the text throws in turn, such as an [Error]
    whose message is a [Symbol], or an object without [toString], which is
    truthy; [raised] is what is thrown then. *)
Inductive thrown :=
| Plain (v : js_value)
| Unprintable (raised : thrown).

(** The part of the page that [runTutorial] reads and writes:
    [window.__tutorialStatus] (absent until first written), the [useState]
    cells of [Home], and the calls of [console.error]. *)
Record PageState := {
  tutorialStatus : option (gmap string TutorialStatus);
  cells : gmap string bool;
  console : list (string * thrown)
}.

(** [win.__tutorialStatus?.[name]], as the test reads it. *)
Definition status_of (s : PageState) (name : string) : option TutorialStatus :=
  match tutorialStatus s with
  | Some m => m !! name
  | None => None
  end.

(** [error instanceof Error ? `${error.name}: ${error.message}`
     : error ? String(error) : undefined] *)
Definition error_text (error : option js_value) : option string :=
  match error with
  | Some (JsError name message) => Some (name +:+ ": " +:+ message)
  | Some (JsOther true text) => Some text
  | Some (JsOther false _) => None
  | None => None
  end.

(** [updateTutorialStatus(name, state, error)] for an [error] whose text
    can be computed; [has_window] is [typeof window !== "undefined"]. *)
Definition updateTutorialStatus (has_window : bool) (name : string)
    (st : TutorialState) (error : option js_value) (s : PageState) : PageState :=
  if negb has_window then s
  else
    let current := match tutorialStatus s with Some m => m | None => ∅ end in
    let current := <[ name := {| state := st; error := error_text error |} ]> current in
    {| tutorialStatus := Some current; cells := cells s; console := console s |}.

Definition console_error (label : string) (e : thrown) (s : PageState) : PageState :=
  {| tutorialStatus := tutorialStatus s; cells := cells s;
     console := console s ++ [(label, e)] |}.

(** The setter of the [useState] cell called [key]. *)
Definition set_cell (key : string) (value : bool) (s : PageState) : PageState :=
  {| tutorialStatus := tutorialStatus s; cells := <[ key := value ]> (cells s);
     console := console s |}.

(** *** Asynchronous code

    A promise is settled, fulfilled or rejected, or stays pending for ever
    ([None]); an async function is a state transformer producing one. *)
Inductive Settled (A : Type) :=
| Fulfilled (a : A)
| Rejected (reason : thrown).
Arguments Fulfilled {A} a.
Arguments Rejected {A} reason.

Definition Async (A : Type) : Type := PageState -> option (Settled A * PageState).

(** A synchronous statement that cannot throw. *)
Definition sync (f : PageState -> PageState) : Async unit :=
  fun s => Some (Fulfilled tt, f s).

(** [updateTutorialStatus(name, state, error)] for any thrown [error].  In
    a browser the text of the error is computed before anything is written:
    when that throws, the call throws and the map is left as it was. *)
Definition updateTutorialStatus_thrown (has_window : bool) (name : string)
    (st : TutorialState) (error : thrown) : Async unit :=
  fun s =>
    match error with
    | Plain v => Some (Fulfilled tt, updateTutorialStatus has_window name st (Some v) s)
    | Unprintable raised =>
        if has_window then Some (Rejected raised, s) else Some (Fulfilled tt, s)
    end.

(** [a; b], where a rejection of [a] skips [b]. *)
Definition seq (a b : Async unit) : Async unit :=
  fun s =>
    match a s with
    | None => None
    | Some (Rejected e, s1) => Some (Rejected e, s1)
    | Some (Fulfilled _, s1) => b s1
    end.

(** [try { body } catch (e) { handler e } finally { finalizer }]: the
    finalizer runs in every case, also when the handler throws, and its own
    rejection wins. *)
Definition try_catch_finally (body : Async unit) (handler : thrown -> Async unit)
    (finalizer : Async unit) : Async unit :=
  fun s =>
    let finally (r : Settled unit) (s1 : PageState) :=
      match finalizer s1 with
      | None => None
      | Some (Rejected e, s2) => Some (Rejected e, s2)
      | Some (Fulfilled _, s2) => Some (r, s2)
      end in
    match body s with
    | None => None
    | Some (Fulfilled u, s1) => finally (Fulfilled u) s1
    | Some (Rejected e, s1) =>
        match handler e s1 with
        | None => None
        | Some (r, s2) => finally r s2
        end
    end.

Definition runTutorial (has_window : bool) (name : string) (action : Async unit)
    (setIsRunning : bool -> PageState -> PageState) : Async unit :=
  seq (sync (setIsRunning true))
 (seq (sync (updateTutorialStatus has_window name running None))
      (try_catch_finally
         (seq action (sync (updateTutorialStatus has_window name passed None)))
         (fun error =>
            seq (sync (console_error ("[tutorial:" +:+ name +:+ "]") error))
                (updateTutorialStatus_thrown has_window name failed error))
         (sync (setIsRunning false)))).

(** The imported tutorials, which live in the SDK and on the network. *)
Record Tutorials := {
  createMintConsume : Async unit;
  multiSendWithDelegatedProver : Async unit;
  incrementCounterContract : Async unit;
  unauthenticatedNoteTransfer : Async unit;
  foreignProcedureInvocation : Async unit
}.

(** The click handlers of [Home]: each awaits [runTutorial] and does nothing
    else, so it settles the way [runTutorial] does. *)
Section Home.
Variable has_window : bool.
Variable lib : Tutorials.

Definition handleCreateMintConsume : Async unit :=
  runTutorial has_window "createMintConsume" (createMintConsume lib)
    (set_cell "isCreatingNotes").

Definition handleMultiSendNotes : Async unit :=
  runTutorial has_window "multiSendWithDelegatedProver"
    (multiSendWithDelegatedProver lib) (set_cell "isMultiSendNotes").

Definition handleIncrementCounterContract : Async unit :=
  runTutorial has_window "incrementCounterContract"
    (incrementCounterContract lib) (set_cell "isIncrementCounter").

Definition handleUnauthenticatedNoteTransfer : Async unit :=
  runTutorial has_window "unauthenticatedNoteTransfer"
    (unauthenticatedNoteTransfer lib) (set_cell "isUnauthenticatedNoteTransfer").

Definition handleForeignProcedureInvocation : Async unit :=
  runTutorial has_window "foreignProcedureInvocation"
    (foreignProcedureInvocation lib) (set_cell "isForeignProcedureInvocation").
End Home.

End Page.

(** * Vocabulary of the statements *)

Module ShellSpec.
Import Word Shell.

(** What one attempt does: create its directory, run the binary in it. *)
Definition attempt_events (w : World) (name now : string) (attempt : nat) : list Event :=
  let dir := run_dir w name now attempt in
  [ EvMkdir dir; EvCargoRun name dir (dir +:+ "/output.log") ].

(** [m] consecutive attempts of [name], the first one numbered [k] and
    started at tick [t], with a 10 second sleep between two of them. *)
Fixpoint attempts_trace (w : World) (name : string) (t k m : nat) : list Event :=
  match m with
  | O => []
  | S m' =>
      attempt_events w name (date w t) k
      ++ match m' with
         | O => []
         | S _ => EvSleep 10 :: attempts_trace w name (S t) (S k) m'
         end
  end.

Definition is_sleep (e : Event) : bool :=
  match e with EvSleep _ => true | _ => false end.

Definition is_playwright (e : Event) : bool :=
  match e with EvPlaywright _ _ => true | _ => false end.

Definition is_web_tag (tag : string) : bool := String.eqb tag "web".




(** The range of 64-bit signed integers. *)
Definition int64 (v : Z) : Prop := (- 2 ^ 63 <= v < 2 ^ 63)%Z.

(** [--web], [--rust], [--web=...] and [--rust=...]. *)
Definition is_class_flag (a : string) : bool :=
  String.eqb a "--web" || starts_with "--web=" a
  || String.eqb a "--rust" || starts_with "--rust=" a.

Definition state_of (r : Result) : State :=
  match r with Exited _ s => s | Running s => s end.

(** A requested name that the catalog of its class does not list. *)
Definition unknown_in (catalog names : list string) (name : string) : Prop :=
  In name names /\ contains name catalog = false.

Definition unknown_lines (class : string) (catalog : list string) (name : string)
    : list Line :=
  [ Err ("Unknown " +:+ class +:+ " tutorial: " +:+ name);
    Err ("Available " +:+ class +:+ " tutorials: " +:+ join " " catalog) ].

(** [s'] is [s] after printing some lines and nothing else. *)
Definition only_printed (s s' : State) : Prop :=
  run_web s' = run_web s /\ run_rust s' = run_rust s
  /\ saw_selector s' = saw_selector s
  /\ web_names s' = web_names s /\ rust_names s' = rust_names s
  /\ failures s' = failures s /\ trace s' = trace s /\ ticks s' = ticks s
  /\ exists ls : list Line, output s' = output s ++ ls.

(** The flags of a parsed command line are consistent: names were only
    collected for a selected class, and a selected class means that a
    selector was seen. *)
Definition consistent (s : State) : Prop :=
  (web_names s <> [] -> run_web s = true)
  /\ (rust_names s <> [] -> run_rust s = true)
  /\ (run_web s = true -> saw_selector s = true)
  /\ (run_rust s = true -> saw_selector s = true).

Definition failure_lines (tags : list string) : list Line :=
  [ Out ""; Out "Failures:" ] ++ List.map (fun tag => Out ("  " +:+ tag)) tags.

(** Induction along the cases of the argument loop. *)
Functional Scheme parse_args_ind := Induction for parse_args Sort Prop.

End ShellSpec.

(** Concrete worlds and invocations. *)

Module Scenario.
Import Shell.

(** A world whose clock stands still and where every rust tutorial exits
    with [status].  The scenarios set [TUTORIAL_RETRIES] to integer
    constants only, so that [expression] is never consulted. *)
Definition world (retries : env_value) (status : Z) : World :=
  {| ROOT_DIR := "/repo"; pid := 4242; TUTORIAL_RETRIES := retries;
     expression := fun _ => Invalid;
     date := fun _ => "20260101-120000";
     playwright_status := fun _ => 0%Z;
     cargo_clean_status := 0%Z;
     cargo_run_status := fun _ _ => status;
     masm_entry := Absent |}.

Definition empty_page : Page.PageState :=
  {| Page.tutorialStatus := None; Page.cells := ∅; Page.console := [] |}.

Definition fulfils : Page.Async unit := fun s => Some (Page.Fulfilled tt, s).

Definition rejects (e : Page.js_value) : Page.Async unit :=
  fun s => Some (Page.Rejected (Page.Plain e), s).

(** A promise rejected with a value whose text cannot be computed, such as
    [Object.create(null)]: [String] of it throws a [TypeError]. *)
Definition no_text : Page.thrown :=
  Page.Unprintable
    (Page.Plain (Page.JsError "TypeError" "Cannot convert object to primitive value")).

Definition rejects_without_text : Page.Async unit :=
  fun s => Some (Page.Rejected no_text, s).

End Scenario.

(** * Further vocabulary of the runner *)

Module RunnerSpec.
Import Word Shell ShellSpec.

(** The [--bin] of each [cargo run], in order. *)
Definition bins_of (es : list Event) : list string :=
  List.flat_map (fun e => match e with EvCargoRun bin _ _ => [bin] | _ => [] end) es.


(** The trace of the loops over [names] when the i-th of them makes
    [counts_i] attempts, the first attempt of all being started at tick [t]. *)
Fixpoint runs_trace (w : World) (names : list string) (counts : list nat) (t : nat)
    : list Event :=
  match names, counts with
  | name :: names', m :: counts' =>
      attempts_trace w name t 1 m ++ runs_trace w names' counts' (t + m)
  | _, _ => []
  end.



Fixpoint has_char (c : ascii) (s : string) : bool :=
  match s with
  | "" => false
  | String a s' => Ascii.eqb a c || has_char c s'
  end.

(** A name as it can be given in a comma-separated list. *)
Definition plain_name (s : string) : bool :=
  nonempty s && negb (has_char ","%char s) && negb (has_char newline s).

(** The state the blocks start from: without any selector both classes run. *)
Definition effective (s : State) : State :=
  if negb (saw_selector s) then run_both s else s.

(** The notice printed for a requested name that is skipped by default. *)
Definition note (name : string) : Line :=
  Out ("Note: " +:+ name +:+
       " is skipped by default but will run because it was explicitly requested.").

(** The events that prepare the runs directory when nothing goes wrong. *)
Definition prepared (w : World) : list Event :=
  [ EvCargoClean (manifest w); EvMkdir (RUNS_DIR w) ]
  ++ match masm_entry w with
     | Absent => [ EvSymlink "../../masm" (RUNS_DIR w +:+ "/masm") ]
     | _ => []
     end.

End RunnerSpec.

(** * The count read back in the foreign procedure invocation tutorial

    [web-client/lib/foreignProcedureInvocation.ts] logs the counter copied
    into the reader contract with
    [Number(BigInt('0x' + word.toHex().slice(-16).match(/../g)!.reverse().join('')))].
    Strings are sequences of one-byte characters here. *)

Module Fpi.

(** [s.slice(-n)]: the last [n] characters, or all of [s] when it is shorter. *)
Definition slice_last (n : nat) (s : string) : string :=
  String.substring (String.length s - n) n s.

(** The characters the dot of a regular expression does not match. *)
Definition is_line_terminator (c : ascii) : bool :=
  Ascii.eqb c "010"%char || Ascii.eqb c "013"%char.

(** [s.match(/../g)]: the successive pairs of characters, none of them a
    line terminator.  The empty list stands for [null]. *)
Fixpoint pairs (s : string) : list string :=
  match s with
  | String a tail =>
      match tail with
      | String b rest =>
          if negb (is_line_terminator a) && negb (is_line_terminator b)
          then String a (String b "") :: pairs rest
          else pairs tail
      | "" => []
      end
  | "" => []
  end.

Definition hex_value (c : ascii) : option Z :=
  match Ascii.is_nat c with
  | Some d => Some (Z.of_nat d)
  | None =>
      match c with
      | "a" | "A" => Some 10%Z
      | "b" | "B" => Some 11%Z
      | "c" | "C" => Some 12%Z
      | "d" | "D" => Some 13%Z
      | "e" | "E" => Some 14%Z
      | "f" | "F" => Some 15%Z
      | _ => None
      end%char
  end.

(** The value of a run of hexadecimal digits read after [acc]. *)
Fixpoint hex_digits (acc : Z) (s : string) : option Z :=
  match s with
  | "" => Some acc
  | String c s' =>
      match hex_value c with
      | Some d => hex_digits (16 * acc + d) s'
      | None => None
      end
  end.

Definition is_white_space (c : ascii) : bool :=
  Ascii.eqb c " "%char || Ascii.eqb c "009"%char || Ascii.eqb c "010"%char
  || Ascii.eqb c "011"%char || Ascii.eqb c "012"%char || Ascii.eqb c "013"%char.

Fixpoint all_white_space (s : string) : bool :=
  match s with
  | "" => true
  | String c s' => is_white_space c && all_white_space s'
  end.

(** [s] without its trailing white space. *)
Fixpoint trim_end (s : string) : string :=
  match s with
  | "" => ""
  | String c s' => if all_white_space s then "" else String c (trim_end s')
  end.

(** [BigInt('0x' + digits)]: white space at the end is ignored, at least one
    digit is needed, and anything else is a [SyntaxError] ([None]). *)
Definition BigInt_0x (digits : string) : option Z :=
  match trim_end digits with
  | "" => None
  | trimmed => hex_digits 0 trimmed
  end.

(** [Number(z)] for [0 <= z < 2^64]: the nearest double, ties to even. *)
Definition Number_of_BigInt (z : Z) : Z :=
  let bits := (Z.log2 z + 1)%Z in
  if (bits <=? 53)%Z then z
  else
    let e := (bits - 53)%Z in
    let q := Z.shiftr z e in
    let r := Z.land z (Z.ones e) in
    let half := Z.shiftl 1 (e - 1) in
    Z.shiftl (if (half <? r)%Z || ((r =? half)%Z && Z.odd q) then q + 1 else q)%Z e.

(** The logged count for a given [toHex()]; [None] when the expression
    throws. *)
Definition countValue (hex : string) : option Z :=
  match pairs (slice_last 16 hex) with
  | [] => None
  | ps =>
      match BigInt_0x (String.concat "" (List.rev ps)) with
      | Some z => Some (Number_of_BigInt z)
      | None => None
      end
  end.

(** Lower-case hexadecimal rendering of bytes, for the statements. *)
Definition hex_digit (d : nat) : ascii :=
  match d with
  | 0 => "0" | 1 => "1" | 2 => "2" | 3 => "3" | 4 => "4" | 5 => "5" | 6 => "6"
  | 7 => "7" | 8 => "8" | 9 => "9" | 10 => "a" | 11 => "b" | 12 => "c"
  | 13 => "d" | 14 => "e" | _ => "f"
  end%char%nat.

Definition hex_byte (b : nat) : string :=
  String (hex_digit (b / 16)) (String (hex_digit (b mod 16)) "").

Definition hex_bytes (bs : list nat) : string :=
  String.concat "" (List.map hex_byte bs).

(** The number whose little-endian bytes are [bs]. *)
Fixpoint le_value (bs : list nat) : Z :=
  match bs with
  | [] => 0
  | b :: bs' => (Z.of_nat b + 256 * le_value bs')%Z
  end.

End Fpi.

(** * The Playwright test of the page

    [web-client/tests] opens the page, clicks the button of a tutorial, waits
    for its entry of [window.__tutorialStatus] to be [passed] or [failed],
    and fails on any console error. *)

Module HomePage.
Import Page.

(** The five [useState(false)] cells of [Home]. *)
Definition Home_initial : PageState :=
  {| tutorialStatus := None;
     cells := {[ "isCreatingNotes" := false; "isMultiSendNotes" := false;
                 "isIncrementCounter" := false;
                 "isUnauthenticatedNoteTransfer" := false;
                 "isForeignProcedureInvocation" := false ]};
     console := [] |}.

(** The [onClick] of the button carrying a given [data-testid]. *)
Definition onClick (has_window : bool) (lib : Tutorials) (testid : string)
    : option (Async unit) :=
  if String.eqb testid "tutorial-createMintConsume"
  then Some (handleCreateMintConsume has_window lib)
  else if String.eqb testid "tutorial-multiSendWithDelegatedProver"
  then Some (handleMultiSendNotes has_window lib)
  else if String.eqb testid "tutorial-incrementCounterContract"
  then Some (handleIncrementCounterContract has_window lib)
  else if String.eqb testid "tutorial-unauthenticatedNoteTransfer"
  then Some (handleUnauthenticatedNoteTransfer has_window lib)
  else if String.eqb testid "tutorial-foreignProcedureInvocation"
  then Some (handleForeignProcedureInvocation has_window lib)
  else None.

(** The label of a button, by the cell it shows. *)
Definition label (s : PageState) (cell title : string) : string :=
  match cells s !! cell with
  | Some true => "Working..."
  | _ => title
  end.

End HomePage.

Module TutorialTest.
Import Page HomePage.

Definition tutorialTimeoutMs : Z := 10 * 60 * 1000.

Record Tutorial := { name : string; testId : string }.

Definition tutorials : list Tutorial :=
  [ {| name := "createMintConsume"; testId := "tutorial-createMintConsume" |};
    {| name := "multiSendWithDelegatedProver";
       testId := "tutorial-multiSendWithDelegatedProver" |};
    {| name := "incrementCounterContract"; testId := "tutorial-incrementCounterContract" |};
    {| name := "unauthenticatedNoteTransfer";
       testId := "tutorial-unauthenticatedNoteTransfer" |};
    {| name := "foreignProcedureInvocation";
       testId := "tutorial-foreignProcedureInvocation" |} ].

(** What the two listeners of the test are told by the browser. *)
Inductive BrowserEvent :=
| ConsoleMessage (type text : string)
| PageError (message : string).

(** The array filled by [page.on("console")] and [page.on("pageerror")]. *)
Definition consoleErrors (events : list BrowserEvent) : list string :=
  List.flat_map
    (fun ev =>
       match ev with
       | ConsoleMessage type text =>
           if String.eqb type "error" then [ "[console.error] " +:+ text ] else []
       | PageError message => [ "[pageerror] " +:+ message ]
       end) events.

Inductive TestResult :=
| Passed
| Thrown (message : string)        (* [throw new Error(message)] *)
| TimedOut                         (* [click] or [waitForFunction] gave up *)
| ExpectFailed (matcher : string). (* an [expect] did not hold *)

(** The predicate polled by [waitForFunction]. *)
Definition settled (s : PageState) (tutorialName : string) : bool :=
  match status_of s tutorialName with
  | Some status =>
      match state status with
      | passed | failed => true
      | running => false
      end
  | None => false
  end.

Definition line_feed : string := String Word.newline "".

(** The messages of the two errors the test throws itself. *)
Definition console_report (events : list BrowserEvent) (tutorialName : string) : string :=
  "Console errors detected during " +:+ tutorialName +:+ ":" +:+ line_feed
  +:+ Word.join line_feed (consoleErrors events).

Definition failure_report (tutorialName : string) (error : option string) : string :=
  "Tutorial " +:+ tutorialName +:+ " failed: "
  +:+ match error with
      | Some text => text
      | None => "unknown error"
      end.

(** The part of the test after [waitForFunction], on the page [s] it sees. *)
Definition verdict (events : list BrowserEvent) (tutorialName : string)
    (s : PageState) : TestResult :=
  let status := status_of s tutorialName in
  if (0 <? List.length (consoleErrors events))%nat then
    Thrown (console_report events tutorialName)
  else
    match status with
    | None => ExpectFailed "not.toBeNull"
    | Some status =>
        match state status with
        | failed => Thrown (failure_report tutorialName (error status))
        | passed => Passed
        | running => ExpectFailed "toBe"
        end
    end.

(** [runTutorial(page, tutorialName, testId)] of the test, for a library of
    tutorials and for what the listeners hear.  The page is the one of a
    browser, freshly loaded; the handler of the button runs to its end
    before the status is polled for the last time.  Time is not modelled: a
    step gives up only when what it waits for never comes. *)
Definition runTutorial (lib : Tutorials) (events : list BrowserEvent)
    (tutorialName testid : string) : TestResult :=
  match onClick true lib testid with
  | None => TimedOut
  | Some handler =>
      match handler Home_initial with
      | None => TimedOut
      | Some (_, s) =>
          if settled s tutorialName then verdict events tutorialName s else TimedOut
      end
  end.

(** What the console listener hears of the [console.error] calls of the
    page, [render] giving the text of a console message. *)
Definition heard (render : string -> thrown -> string) (s : PageState)
    : list BrowserEvent :=
  List.map (fun entry => ConsoleMessage "error" (render (fst entry) (snd entry)))
           (console s).

(** The imported function a tutorial of the list stands for, and the cell
    its button shows. *)
Definition action_of (lib : Tutorials) (tutorialName : string) : Async unit :=
  if String.eqb tutorialName "createMintConsume" then createMintConsume lib
  else if String.eqb tutorialName "multiSendWithDelegatedProver"
  then multiSendWithDelegatedProver lib
  else if String.eqb tutorialName "incrementCounterContract"
  then incrementCounterContract lib
  else if String.eqb tutorialName "unauthenticatedNoteTransfer"
  then unauthenticatedNoteTransfer lib
  else foreignProcedureInvocation lib.

Definition cell_of (tutorialName : string) : string :=
  if String.eqb tutorialName "createMintConsume" then "isCreatingNotes"
  else if String.eqb tutorialName "multiSendWithDelegatedProver" then "isMultiSendNotes"
  else if String.eqb tutorialName "incrementCounterContract" then "isIncrementCounter"
  else if String.eqb tutorialName "unauthenticatedNoteTransfer"
  then "isUnauthenticatedNoteTransfer"
  else "isForeignProcedureInvocation".

(** The page at the moment the action of a tutorial is invoked. *)
Definition started (tutorialName : string) : PageState :=
  updateTutorialStatus true tutorialName running None
    (set_cell (cell_of tutorialName) true Home_initial).

End TutorialTest.

(** * Facts about words *)

Module WordFacts.
Import Word.

Lemma str_app_nil_l (s : string) : "" +:+ s = s.
Proof. reflexivity. Qed.

Lemma str_app_cons (c : ascii) (s t : string) : String c s +:+ t = String c (s +:+ t).
Proof. reflexivity. Qed.

Lemma str_app_assoc (a b c : string) : (a +:+ b) +:+ c = a +:+ (b +:+ c).
Proof.
  induction a as [|x a IH]; [reflexivity|].
  rewrite !str_app_cons, IH. reflexivity.
Qed.

Lemma to_list_app (a b : string) :
  list_ascii_of_string (a +:+ b) = list_ascii_of_string a ++ list_ascii_of_string b.
Proof.
  induction a as [|x a IH]; [reflexivity|].
  rewrite str_app_cons. simpl. rewrite IH. reflexivity.
Qed.

Lemma to_list_inj (a b : string) :
  list_ascii_of_string a = list_ascii_of_string b -> a = b.
Proof.
  intros H.
  rewrite <- (string_of_list_ascii_of_string a), <- (string_of_list_ascii_of_string b).
  rewrite H. reflexivity.
Qed.

Lemma to_list_length (a : string) :
  List.length (list_ascii_of_string a) = String.length a.
Proof. induction a as [|x a IH]; simpl; congruence. Qed.

(** Two concatenations with tails of the same length agree piecewise. *)
Lemma str_app_inj_len (a b x y : string) :
  String.length x = String.length y ->
  a +:+ x = b +:+ y -> a = b /\ x = y.
Proof.
  intros Hlen Heq.
  apply (f_equal list_ascii_of_string) in Heq.
  rewrite !to_list_app in Heq.
  apply app_inj_2 in Heq; [|rewrite !to_list_length; exact Hlen].
  destruct Heq as [H1 H2]. split; apply to_list_inj; assumption.
Qed.

Lemma str_app_inv_tail (a b x : string) : a +:+ x = b +:+ x -> a = b.
Proof. intros H. apply (str_app_inj_len a b x x) in H; [tauto|reflexivity]. Qed.

Lemma all_digits_app (p q : string) :
  all_digits (p +:+ q) = all_digits p && all_digits q.
Proof.
  induction p as [|c p IH]; [reflexivity|].
  rewrite str_app_cons. simpl. rewrite IH. apply andb_assoc.
Qed.

Lemma trailing_digits_all (d : string) : all_digits d = true -> trailing_digits d = d.
Proof.
  destruct d as [|c d]; [reflexivity|].
  intros H. simpl in *. rewrite H. reflexivity.
Qed.

(** A prefix does not matter when the rest holds a character that is not a
    digit. *)
Lemma trailing_digits_app (p q : string) :
  all_digits q = false -> trailing_digits (p +:+ q) = trailing_digits q.
Proof.
  intros Hq. induction p as [|c p IH]; [reflexivity|].
  rewrite str_app_cons. simpl.
  rewrite all_digits_app, Hq, !andb_false_r. exact IH.
Qed.

Lemma all_digits_uint (d : Decimal.uint) : all_digits (NilEmpty.string_of_uint d) = true.
Proof. induction d; simpl; auto. Qed.

Lemma all_digits_dec (n : nat) : all_digits (dec n) = true.
Proof. apply all_digits_uint. Qed.

Lemma dec_inj (a b : nat) : dec a = dec b -> a = b.
Proof.
  unfold dec. intros H.
  apply DecimalNat.Unsigned.to_uint_inj.
  assert (Hs : Some (Nat.to_uint a) = Some (Nat.to_uint b)).
  { rewrite <- !NilEmpty.usu. rewrite H. reflexivity. }
  congruence.
Qed.

(** The digits after a separator that starts with a non-digit are read
    back from the end of the word. *)
Lemma trailing_digits_sep (p : string) (c : ascii) (sep d : string) :
  is_digit c = false -> all_digits d = true ->
  trailing_digits (p +:+ String c sep +:+ d) = trailing_digits (sep +:+ d).
Proof.
  intros Hc Hd.
  rewrite trailing_digits_app.
  - rewrite str_app_cons. simpl. rewrite Hc. reflexivity.
  - rewrite str_app_cons. simpl. rewrite Hc. reflexivity.
Qed.

Lemma prefix_dashes (p s : string) :
  String.prefix ("--" +:+ p) s = true -> starts_with "--" s = true.
Proof.
  unfold starts_with.
  change ("--" +:+ p) with (String "-" (String "-" p)).
  destruct s as [|c1 [|c2 s]]; cbn [String.prefix].
  - discriminate.
  - destruct (ascii_dec "-" c1); discriminate.
  - destruct (ascii_dec "-" c1); [|discriminate].
    destruct (ascii_dec "-" c2); [|discriminate]. intros _. destruct s; reflexivity.
Qed.

End WordFacts.

(** * Facts about the tutorial runner *)

Module ShellFacts.
Import Word Shell ShellSpec WordFacts.

(** ** One attempt and the retry loop *)

Lemma attempt_once_fields (w : World) (name : string) (k : nat) (s : State)
    (status : Z) (s1 : State) :
  attempt_once w name k s = (status, s1) ->
  status = cargo_run_status w (ticks s) name
  /\ trace s1 = trace s ++ attempt_events w name (date w (ticks s)) k
  /\ failures s1 = failures s
  /\ ticks s1 = S (ticks s).
Proof.
  unfold attempt_once. intros H. injection H as <- <-. simpl.
  rewrite <- List.app_assoc. auto.
Qed.

Lemma attempts_trace_S (w : World) (name : string) (t k m : nat) :
  (1 <= m)%nat ->
  attempts_trace w name t k (S m)
  = attempt_events w name (date w t) k
    ++ EvSleep 10 :: attempts_trace w name (S t) (S k) m.
Proof. destruct m as [|m]; [lia|]. reflexivity. Qed.

Lemma attempts_trace_one (w : World) (name : string) (t k : nat) :
  attempts_trace w name t k 1 = attempt_events w name (date w t) k.
Proof. reflexivity. Qed.

(** ** Arithmetic of the shell *)

Lemma wrap64_range (z : Z) : int64 (wrap64 z).
Proof.
  unfold int64, wrap64.
  pose proof (Z.mod_pos_bound (z + 2 ^ 63) (2 ^ 64) ltac:(lia)). lia.
Qed.


Lemma constant_range (word : string) (v : Z) :
  constant word = Some (Value v) -> int64 v.
Proof.
  unfold constant. destruct word as [|c rest]; [discriminate|].
  destruct (Ascii.eqb c "-");
    match goal with
    | |- (if ?b then _ else _) = _ -> _ => destruct b; [|discriminate]
    end;
    (destruct (magnitude _); [|discriminate]);
    intros H; injection H as <-; apply wrap64_range.
Qed.

(** Every value of the arithmetic is a 64-bit integer. *)
Lemma arith_range (w : World) (word : string) (v : Z) :
  arith w word = Value v -> int64 v.
Proof.
  unfold arith. destruct (constant word) as [r|] eqn:E.
  - intros ->. eapply constant_range. exact E.
  - destruct (expression w word); try discriminate.
    intros H. injection H as <-. apply wrap64_range.
Qed.









(** ** The retry loop *)

Lemma enough_pos (w : World) : (1 <= enough w)%nat.
Proof. unfold enough. destruct (budget w); lia. Qed.

(** An attempt that exits zero ends the loop at once, whatever the budget. *)
Lemma retry_loop_success (w : World) (name : string) (fuel k : nat) (s : State) :
  cargo_run_status w (ticks s) name = 0%Z ->
  retry_loop (S fuel) w name k s = Some (Running (snd (attempt_once w name k s))).
Proof.
  intros Hok. cbn [retry_loop].
  destruct (attempt_once w name k s) as [status s1] eqn:E.
  pose proof (attempt_once_fields w name k s status s1 E) as (Hs & _).
  rewrite Hs, Hok. reflexivity.
Qed.


(** Whatever the exit statuses, a loop that has ended made [m >= 1]
    attempts numbered [k, k+1, ...], slept between them, and recorded at
    most the failure of its own tutorial. *)
Lemma retry_loop_shape (w : World) (name : string) (fuel : nat) :
  forall (k : nat) (s : State) (r : Result),
    retry_loop fuel w name k s = Some r ->
    exists m : nat,
      (1 <= m)%nat
      /\ trace (state_of r) = trace s ++ attempts_trace w name (ticks s) k m
      /\ ticks (state_of r) = (ticks s + m)%nat
      /\ (failures (state_of r) = failures s
          \/ failures (state_of r) = failures s ++ [ "rust:" +:+ name ]).
Proof.
  induction fuel as [|fuel IH]; intros k s r H; [discriminate|].
  cbn [retry_loop] in H.
  destruct (attempt_once w name k s) as [status s1] eqn:E.
  apply attempt_once_fields in E as (_ & Ht & Hf & Hk).
  destruct (status =? 0)%Z.
  { injection H as <-. exists 1%nat. rewrite attempts_trace_one. cbn [state_of].
    repeat split; auto. lia. }
  destruct (budget_used w k) as [[|]|].
  - injection H as <-. exists 1%nat. rewrite attempts_trace_one.
    simpl. repeat split; auto; [lia|]. right. rewrite Hf. reflexivity.
  - apply IH in H as (m & Hm & Ht' & Hk' & Hf').
    simpl in Ht', Hk', Hf'.
    exists (S m). rewrite attempts_trace_S by exact Hm.
    split; [lia|]. split.
    { rewrite Ht', Ht, Hk, Nat.add_1_r, <- !List.app_assoc. reflexivity. }
    split; [lia|].
    rewrite Hf in Hf'. exact Hf'.
  - injection H as <-. exists 1%nat. rewrite attempts_trace_one. cbn [state_of].
    repeat split; auto. lia.
Qed.


(** With a budget that fails to evaluate, a tutorial that always fails is
    retried for ever. *)
Lemma retry_loop_never_ends (w : World) (name : string) :
  budget w = Invalid ->
  (forall n, cargo_run_status w n name <> 0%Z) ->
  forall (fuel k : nat) (s : State), retry_loop fuel w name k s = None.
Proof.
  intros Hv Hfail. induction fuel as [|fuel IH]; intros k s; [reflexivity|].
  cbn [retry_loop].
  destruct (attempt_once w name k s) as [status s1] eqn:E.
  apply attempt_once_fields in E as (Hs & _).
  assert (Hne : (status =? 0)%Z = false).
  { apply Z.eqb_neq. rewrite Hs. apply Hfail. }
  rewrite Hne. unfold budget_used. rewrite Hv. apply IH.
Qed.


(** A budget that evaluates bounds the loop. *)
Lemma retry_loop_total (w : World) (name : string) (v : Z) :
  budget w = Value v ->
  forall (fuel k : nat) (s : State),
    (1 <= fuel)%nat -> (v < Z.of_nat k + Z.of_nat fuel)%Z ->
    exists r : Result, retry_loop fuel w name k s = Some r.
Proof.
  intros Hv. induction fuel as [|fuel IH]; intros k s H1 Hlt; [lia|].
  cbn [retry_loop].
  destruct (attempt_once w name k s) as [status s1].
  destruct (status =? 0)%Z; [eauto|].
  unfold budget_used. rewrite Hv.
  destruct (Z.of_nat k >=? v)%Z eqn:Hge; [eauto|].
  apply IH; lia.
Qed.

Lemma retry_loop_enough (w : World) (name : string) (s : State) :
  budget w <> Invalid ->
  exists r : Result, retry_loop (enough w) w name 1 s = Some r.
Proof.
  intros Hv. unfold enough. destruct (budget w) as [v| |] eqn:E; [|contradiction|].
  - apply (retry_loop_total w name v E); lia.
  - cbn [retry_loop]. destruct (attempt_once w name 1 s) as [status s1].
    destruct (status =? 0)%Z; [eauto|].
    unfold budget_used. rewrite E. eauto.
Qed.

(** ** Names of run directories *)

(** The attempt number is read back from the end of the name. *)
Lemma trailing_digits_run_dir (w : World) (name now : string) (k : nat) :
  trailing_digits (run_dir w name now k) = dec k.
Proof.
  unfold run_dir, run_stamp.
  rewrite <- !str_app_assoc.
  rewrite !(str_app_assoc _ "-attempt" _).
  change "-attempt" with (String "-" "attempt").
  rewrite trailing_digits_sep by (reflexivity || apply all_digits_dec).
  change (trailing_digits ("attempt" +:+ dec k)) with (trailing_digits (dec k)).
  apply trailing_digits_all, all_digits_dec.
Qed.

Lemma run_dir_attempt (w w' : World) (name name' now now' : string) (k k' : nat) :
  run_dir w name now k = run_dir w' name' now' k' -> k = k'.
Proof.
  intros H. apply (f_equal trailing_digits) in H.
  rewrite !trailing_digits_run_dir in H.
  apply dec_inj. exact H.
Qed.

(** The name of a run directory determines the tutorial, the time stamp,
    the process and the attempt it was made for. *)
Lemma run_dir_inj (w w' : World) (name name' now now' : string) (k k' : nat) :
  ROOT_DIR w = ROOT_DIR w' ->
  String.length now = String.length now' ->
  run_dir w name now k = run_dir w' name' now' k' ->
  name = name' /\ now = now' /\ pid w = pid w' /\ k = k'.
Proof.
  intros Hroot Hlen H.
  assert (Hk : k = k') by (eapply run_dir_attempt; exact H).
  subst k'.
  unfold run_dir, run_stamp, RUNS_DIR, RUST_DIR in H.
  rewrite Hroot in H.
  rewrite !str_app_assoc in H.
  do 4 apply String.app_inj in H.
  (* name-now-pid, followed by the same "-attemptK" *)
  assert (H1 : name +:+ "-" +:+ now +:+ "-" +:+ dec (pid w)
               = name' +:+ "-" +:+ now' +:+ "-" +:+ dec (pid w')).
  { apply (str_app_inv_tail _ _ ("-attempt" +:+ dec k)).
    rewrite !str_app_assoc. exact H. }
  assert (Hp : pid w = pid w').
  { apply (f_equal trailing_digits) in H1.
    rewrite <- !str_app_assoc in H1.
    rewrite !(str_app_assoc _ "-" (dec _)) in H1.
    change "-" with (String "-" "") in H1 at 2 4.
    rewrite !trailing_digits_sep in H1 by (reflexivity || apply all_digits_dec).
    rewrite !str_app_nil_l, !trailing_digits_all in H1 by apply all_digits_dec.
    apply dec_inj. exact H1. }
  assert (H2 : name +:+ "-" +:+ now = name' +:+ "-" +:+ now').
  { apply (str_app_inv_tail _ _ ("-" +:+ dec (pid w))).
    rewrite !str_app_assoc. rewrite Hp at 2. exact H1. }
  rewrite <- !str_app_assoc in H2.
  apply str_app_inj_len in H2 as [H3 H4]; [|exact Hlen].
  apply str_app_inv_tail in H3. auto.
Qed.

Lemma run_dirs_of_app (es es' : list Event) :
  run_dirs_of (es ++ es') = run_dirs_of es ++ run_dirs_of es'.
Proof. unfold run_dirs_of. apply List.flat_map_app. Qed.

Lemma run_dirs_of_attempts (w : World) (name : string) (m : nat) :
  forall t k : nat,
    run_dirs_of (attempts_trace w name t k m)
    = List.map (fun i => run_dir w name (date w (t + i)) (k + i)) (List.seq 0 m).
Proof.
  induction m as [|m IH]; intros t k; [reflexivity|].
  destruct m as [|m].
  - simpl. rewrite !Nat.add_0_r. reflexivity.
  - rewrite attempts_trace_S by lia.
    rewrite run_dirs_of_app.
    change (run_dirs_of (EvSleep 10 :: attempts_trace w name (S t) (S k) (S m)))
      with (run_dirs_of (attempts_trace w name (S t) (S k) (S m))).
    rewrite IH.
    change (List.seq 0 (S (S m))) with (0%nat :: List.seq 1 (S m)).
    rewrite <- List.seq_shift, List.map_cons, List.map_map, !Nat.add_0_r.
    change (run_dirs_of (attempt_events w name (date w t) k))
      with [run_dir w name (date w t) k].
    cbn [List.app]. f_equal.
    apply List.map_ext. intros i. rewrite !Nat.add_succ_r. reflexivity.
Qed.

(** Each attempt runs in the directory created for it. *)
Lemma created_dirs_attempts (w : World) (name : string) (m : nat) :
  forall t k : nat,
    created_dirs (attempts_trace w name t k m) = run_dirs_of (attempts_trace w name t k m).
Proof.
  induction m as [|m IH]; intros t k; [reflexivity|].
  destruct m as [|m]; [reflexivity|].
  rewrite attempts_trace_S by lia.
  unfold created_dirs, run_dirs_of in *. rewrite !List.flat_map_app.
  cbn [List.flat_map attempt_events List.app]. rewrite IH. reflexivity.
Qed.


(** The attempts of one loop get pairwise distinct directories, whatever
    the clock says. *)
Lemma NoDup_run_dirs_of_attempts (w : World) (name : string) (t k m : nat) :
  List.NoDup (run_dirs_of (attempts_trace w name t k m)).
Proof.
  rewrite run_dirs_of_attempts.
  apply List.NoDup_map_inv with (f := trailing_digits).
  rewrite List.map_map.
  erewrite List.map_ext by (intros i; apply trailing_digits_run_dir).
  rewrite <- (List.map_map (fun i => (k + i)%nat) dec).
  apply List.NoDup_map_NoDup_ForallPairs.
  - intros a b _ _. apply dec_inj.
  - apply List.NoDup_map_NoDup_ForallPairs; [|apply List.seq_NoDup].
    intros a b _ _. lia.
Qed.


(** ** Argument parsing *)

Ltac eqb_facts :=
  repeat match goal with
    | H : String.eqb _ _ = true |- _ => apply String.eqb_eq in H
    | H : String.eqb _ _ = false |- _ => apply String.eqb_neq in H
    | H : negb _ = true |- _ => apply negb_true_iff in H
    | H : negb _ = false |- _ => apply negb_false_iff in H
    | H : orb _ _ = false |- _ => apply orb_false_iff in H as [? ?]
    end.

(** Parsing runs nothing and records nothing. *)
Lemma parse_args_frame (args : list string) (s : State) :
  trace (state_of (parse_args args s)) = trace s
  /\ failures (state_of (parse_args args s)) = failures s
  /\ ticks (state_of (parse_args args s)) = ticks s.
Proof.
  functional induction (parse_args args s); simpl in *; auto.
Qed.

(** Parsing prints only when it ends the process. *)
Lemma parse_args_running (args : list string) (s s' : State) :
  parse_args args s = Running s' -> output s' = output s.
Proof.
  functional induction (parse_args args s); intros H;
    try discriminate H; try (apply IHr in H; simpl in H; exact H).
  injection H as <-. reflexivity.
Qed.

Lemma parse_args_status (args : list string) (s s' : State) (c : Z) :
  parse_args args s = Exited c s' -> c = 0%Z \/ c = 1%Z.
Proof.
  functional induction (parse_args args s); intros H;
    try discriminate H; try (apply IHr in H; exact H);
    injection H as <- <-; auto.
Qed.

Lemma parse_args_consistent (args : list string) (s : State) :
  consistent s -> consistent (state_of (parse_args args s)).
Proof.
  unfold consistent.
  functional induction (parse_args args s); intros (H1 & H2 & H3 & H4);
    simpl in *; auto; apply IHr; simpl; auto.
Qed.

(** An argument [--list] is never taken for a name: the command line ends
    in the parser. *)
Lemma parse_args_list (args : list string) (s : State) :
  In "--list" args -> exists c s', parse_args args s = Exited c s'.
Proof.
  functional induction (parse_args args s); intros Hin; eqb_facts; subst; eauto;
    try (apply IHr); simpl in Hin;
    repeat match goal with
      | H : _ \/ _ |- _ => destruct H
      | H : False |- _ => destruct H
      end; subst; try discriminate; try (simpl; auto; fail);
    match goal with
    | H : starts_with _ _ = _ |- _ => vm_compute in H; discriminate H
    end.
Qed.

Lemma class_flag_dashes (a : string) :
  is_class_flag a = true -> starts_with "--" a = true.
Proof.
  unfold is_class_flag. intros H.
  apply orb_true_iff in H as [H|H]; [|exact (prefix_dashes "rust=" a H)].
  apply orb_true_iff in H as [H|H]; [|apply String.eqb_eq in H; subst; reflexivity].
  apply orb_true_iff in H as [H|H]; [|exact (prefix_dashes "web=" a H)].
  apply String.eqb_eq in H; subst; reflexivity.
Qed.

(** After class flags only, [--list] prints the listing and exits 0. *)
Lemma parse_args_class_flags (pre post : list string) :
  Forall (fun a => is_class_flag a = true) pre ->
  forall s : State,
    exists s' : State,
      parse_args (pre ++ "--list" :: post) s = Exited 0 (print listing s')
      /\ output s' = output s /\ trace s' = trace s /\ failures s' = failures s.
Proof.
  induction 1 as [|a pre Ha Hpre IH]; intros s.
  { exists s. auto. }
  assert (Hnext : exists b rest, pre ++ "--list" :: post = b :: rest
                                 /\ starts_with "--" b = true).
  { destruct Hpre as [|b pre' Hb _]; [exists "--list", post; auto|].
    exists b, (pre' ++ "--list" :: post). split; [reflexivity|].
    apply class_flag_dashes. exact Hb. }
  destruct Hnext as (b & rest & Hrest & Hb).
  change ((a :: pre) ++ "--list" :: post) with (a :: (pre ++ "--list" :: post)).
  cbn [parse_args].
  unfold is_class_flag in Ha.
  destruct (String.eqb a "--web") eqn:E1.
  { rewrite Hrest, Hb. cbn [negb]. rewrite <- Hrest.
    destruct (IH (select_web s)) as (s' & -> & ? & ? & ?). eauto. }
  destruct (starts_with "--web=" a) eqn:E2.
  { destruct (IH (add_web_names (strip_prefix "--web=" a) (select_web s)))
      as (s' & -> & ? & ? & ?). eauto. }
  destruct (String.eqb a "--rust") eqn:E3.
  { rewrite Hrest, Hb. cbn [negb]. rewrite <- Hrest.
    destruct (IH (select_rust s)) as (s' & -> & ? & ? & ?). eauto. }
  destruct (starts_with "--rust=" a) eqn:E4.
  { destruct (IH (add_rust_names (strip_prefix "--rust=" a) (select_rust s)))
      as (s' & -> & ? & ? & ?). eauto. }
  discriminate Ha.
Qed.

(** ** Validation of the requested names *)

Lemma only_printed_refl (s : State) : only_printed s s.
Proof.
  unfold only_printed. repeat split. exists []. symmetry. apply List.app_nil_r.
Qed.

Lemma only_printed_print (ls : list Line) (s s' : State) :
  only_printed (print ls s) s' -> only_printed s s'.
Proof.
  unfold only_printed. simpl.
  intros (? & ? & ? & ? & ? & ? & ? & ? & ls' & Hout).
  repeat split; auto. exists (ls ++ ls'). rewrite Hout. symmetry. apply List.app_assoc.
Qed.

(** Validation only prints. *)
Lemma validate_only_printed (class : string) (catalog skipped names : list string) :
  forall s : State,
    only_printed s (state_of (validate class catalog skipped names s)).
Proof.
  induction names as [|name names IH]; intros s; cbn [validate].
  - apply only_printed_refl.
  - destruct (negb (contains name catalog)).
    + simpl. apply only_printed_print with (ls := []). unfold print. simpl.
      unfold only_printed. simpl. repeat split. rewrite List.app_nil_r. eauto.
    + destruct (contains name skipped); [|apply IH].
      eapply only_printed_print. apply IH.
Qed.

Lemma validate_known (class : string) (catalog skipped names : list string) :
  Forall (fun name => contains name catalog = true) names ->
  forall s : State,
    exists s' : State, validate class catalog skipped names s = Running s'.
Proof.
  induction 1 as [|name names Hname _ IH]; intros s; cbn [validate]; [eauto|].
  rewrite Hname. cbn [negb]. apply IH.
Qed.

(** The first unknown name ends the process with status 1, after the two
    lines naming it and the catalog. *)
Lemma validate_unknown (class : string) (catalog skipped names : list string) :
  (exists name, unknown_in catalog names name) ->
  forall s : State,
    exists (name : string) (s' : State) (ls : list Line),
      unknown_in catalog names name
      /\ validate class catalog skipped names s = Exited 1 s'
      /\ output s' = output s ++ ls ++ unknown_lines class catalog name.
Proof.
  induction names as [|n names IH]; intros (name & Hin & Hun) s.
  { destruct Hin. }
  cbn [validate].
  destruct (contains n catalog) eqn:Hn; cbn [negb].
  - assert (Hrest : exists name, unknown_in catalog names name).
    { exists name. split; [|exact Hun].
      destruct Hin as [->|Hin]; [congruence|exact Hin]. }
    destruct (contains n skipped).
    + destruct (IH Hrest (print
        [Out ("Note: " +:+ n +:+
           " is skipped by default but will run because it was explicitly requested.")] s))
        as (name' & s' & ls & (Hin' & Hun') & Hv & Hout).
      exists name', s', (Out ("Note: " +:+ n +:+
           " is skipped by default but will run because it was explicitly requested.") :: ls).
      split; [split; [right; exact Hin'|exact Hun']|].
      split; [exact Hv|]. rewrite Hout. simpl. rewrite <- List.app_assoc. reflexivity.
    + destruct (IH Hrest s) as (name' & s' & ls & (Hin' & Hun') & Hv & Hout).
      exists name', s', ls. split; [split; [right; exact Hin'|exact Hun']|].
      split; [exact Hv|exact Hout].
  - exists n, (print (unknown_lines class catalog n) s), [].
    split; [split; [left; reflexivity|exact Hn]|].
    split; reflexivity.
Qed.

Lemma validate_status (class : string) (catalog skipped names : list string) :
  forall (s s' : State) (c : Z),
    validate class catalog skipped names s = Exited c s' -> c = 1%Z.
Proof.
  induction names as [|n names IH]; intros s s' c; cbn [validate]; [discriminate|].
  destruct (negb (contains n catalog)); [intros H; injection H as <- _; reflexivity|].
  apply IH.
Qed.

Lemma known_or_unknown (catalog names : list string) :
  Forall (fun name => contains name catalog = true) names
  \/ exists name, unknown_in catalog names name.
Proof.
  induction names as [|n names [IH|(name & Hin & Hun)]].
  - left. constructor.
  - destruct (contains n catalog) eqn:Hn.
    + left. constructor; assumption.
    + right. exists n. split; [left; reflexivity|exact Hn].
  - right. exists name. split; [right; exact Hin|exact Hun].
Qed.

Lemma selection_known (catalog skipped names : list string) :
  Forall (fun name => contains name catalog = true) (defaults catalog skipped) ->
  Forall (fun name => contains name catalog = true) names ->
  Forall (fun name => contains name catalog = true) (selection catalog skipped names).
Proof. unfold selection. intros Hd Hn. destruct (_ =? _)%nat; assumption. Qed.

Lemma selection_requested (catalog skipped names : list string) (name : string) :
  In name names -> selection catalog skipped names = names.
Proof. unfold selection. destruct names; [intros []|reflexivity]. Qed.

Lemma web_defaults_known :
  Forall (fun name => contains name WEB_EXAMPLES = true) (defaults WEB_EXAMPLES WEB_SKIPPED).
Proof. repeat constructor. Qed.

Lemma rust_defaults_known :
  Forall (fun name => contains name RUST_EXAMPLES = true)
         (defaults RUST_EXAMPLES RUST_SKIPPED).
Proof. repeat constructor. Qed.

(** ** The web block *)

Lemma web_block_skipped (w : World) (s : State) :
  run_web s = false -> web_block w s = Running s.
Proof. unfold web_block. intros ->. reflexivity. Qed.

(** With known names the suite is started once, and its failure is recorded
    once, under the tag of the class. *)
Lemma web_block_known (w : World) (s : State) :
  run_web s = true ->
  Forall (fun name => contains name WEB_EXAMPLES = true)
         (selection WEB_EXAMPLES WEB_SKIPPED (web_names s)) ->
  exists s' : State,
    web_block w s = Running s'
    /\ trace s' = trace s ++ [ EvPlaywright (WEB_DIR w)
                    (join "|" (selection WEB_EXAMPLES WEB_SKIPPED (web_names s))) ]
    /\ failures s' = failures s
         ++ (if (playwright_status w
                   (join "|" (selection WEB_EXAMPLES WEB_SKIPPED (web_names s))) =? 0)%Z
             then [] else [ "web" ])
    /\ run_rust s' = run_rust s /\ rust_names s' = rust_names s
    /\ ticks s' = ticks s.
Proof.
  intros Hrun Hknown. unfold web_block. rewrite Hrun.
  set (sel := selection WEB_EXAMPLES WEB_SKIPPED (web_names s)) in *.
  cbn [web_names set_web_names].
  destruct (validate_known "web" WEB_EXAMPLES WEB_SKIPPED sel Hknown
              (set_web_names sel s)) as (s1 & Hv).
  pose proof (validate_only_printed "web" WEB_EXAMPLES WEB_SKIPPED sel
                (set_web_names sel s)) as Hp.
  rewrite Hv in *. cbn [and_then state_of] in *.
  destruct Hp as (_ & Hrr & _ & Hwn & Hrn & Hf & Ht & Hk & _).
  simpl in Hrr, Hwn, Hrn, Hf, Ht, Hk. rewrite Hwn.
  destruct (playwright_status w (join "|" sel) =? 0)%Z; cbn [negb];
    eexists; (split; [reflexivity|]); simpl; rewrite Ht, Hf, ?List.app_nil_r; auto.
Qed.

Lemma web_block_unknown (w : World) (s : State) :
  run_web s = true ->
  (exists name, unknown_in WEB_EXAMPLES (web_names s) name) ->
  exists (name : string) (s' : State) (ls : list Line),
    unknown_in WEB_EXAMPLES (web_names s) name
    /\ web_block w s = Exited 1 s'
    /\ trace s' = trace s /\ failures s' = failures s
    /\ output s' = output s ++ ls ++ unknown_lines "web" WEB_EXAMPLES name.
Proof.
  intros Hrun Hun. unfold web_block. rewrite Hrun.
  assert (Hsel : selection WEB_EXAMPLES WEB_SKIPPED (web_names s) = web_names s).
  { destruct Hun as (name & Hin & _). eapply selection_requested. exact Hin. }
  rewrite Hsel. cbn [web_names set_web_names].
  destruct (validate_unknown "web" WEB_EXAMPLES WEB_SKIPPED (web_names s) Hun
              (set_web_names (web_names s) s)) as (name & s' & ls & Hname & Hv & Hout).
  pose proof (validate_only_printed "web" WEB_EXAMPLES WEB_SKIPPED (web_names s)
                (set_web_names (web_names s) s)) as Hp.
  rewrite Hv in *. cbn [and_then state_of] in *.
  destruct Hp as (_ & _ & _ & _ & _ & Hf & Ht & _).
  exists name, s', ls. repeat split; auto; apply Hname.
Qed.

(** ** The rust block *)

Lemma attempts_trace_no_playwright (w : World) (name : string) (m : nat) :
  forall t k : nat,
    Forall (fun e => is_playwright e = false) (attempts_trace w name t k m).
Proof.
  induction m as [|m IH]; intros t k; [constructor|].
  destruct m as [|m]; [repeat constructor|].
  rewrite attempts_trace_S by lia.
  apply Forall_app. split; [repeat constructor|].
  constructor; [reflexivity|apply IH].
Qed.

Lemma rust_tag_not_web (name : string) : "rust:" +:+ name <> "web".
Proof. discriminate. Qed.

(** The loops come to an end when the budget evaluates. *)
Lemma run_rust_tutorials_total (w : World) (names : list string) :
  budget w <> Invalid ->
  forall s : State, exists r : Result, run_rust_tutorials w names s = Some r.
Proof.
  intros Hv.
  induction names as [|name names IH]; intros s; cbn [run_rust_tutorials]; [eauto|].
  destruct (retry_loop_enough w name s Hv) as ([c s1|s1] & ->); [eauto|apply IH].
Qed.

(** The loops over the tutorials start no browser suite and record no
    failure of the web class. *)
Lemma run_rust_tutorials_frame (w : World) (names : list string) :
  forall (s : State) (r : Result),
    run_rust_tutorials w names s = Some r ->
    exists (es : list Event) (fs : list string),
      trace (state_of r) = trace s ++ es
      /\ Forall (fun e => is_playwright e = false) es
      /\ failures (state_of r) = failures s ++ fs
      /\ Forall (fun f => f <> "web") fs.
Proof.
  induction names as [|name names IH]; intros s r; cbn [run_rust_tutorials].
  { intros H. injection H as <-. exists [], []. cbn [state_of].
    rewrite !List.app_nil_r. auto. }
  destruct (retry_loop (enough w) w name 1 s) as [r1|] eqn:Hloop; [|discriminate].
  apply retry_loop_shape in Hloop as (m & _ & Ht1 & _ & Hf1).
  assert (Hm : Forall (fun e => is_playwright e = false)
                 (attempts_trace w name (ticks s) 1 m))
    by apply attempts_trace_no_playwright.
  assert (Hstep : exists fs1,
             failures (state_of r1) = failures s ++ fs1
             /\ Forall (fun f => f <> "web") fs1).
  { destruct Hf1 as [Hf1|Hf1].
    - exists []. rewrite List.app_nil_r. auto.
    - exists [ "rust:" +:+ name ]. split; [exact Hf1|].
      constructor; [apply rust_tag_not_web|constructor]. }
  destruct Hstep as (fs1 & Hf1' & Hfs1).
  destruct r1 as [c s1|s1]; cbn [state_of] in *.
  { intros H. injection H as <-. cbn [state_of].
    exists (attempts_trace w name (ticks s) 1 m), fs1. auto. }
  intros H. apply IH in H as (es & fs & Ht & Hes & Hf & Hfs).
  exists (attempts_trace w name (ticks s) 1 m ++ es), (fs1 ++ fs).
  rewrite Ht, Ht1, Hf, Hf1', <- !List.app_assoc.
  split; [reflexivity|]. split; [apply Forall_app; auto|].
  split; [reflexivity|apply Forall_app; auto].
Qed.

(** The loops end the script with status 1 only. *)
Lemma run_rust_tutorials_status (w : World) (names : list string) :
  forall (s s' : State) (c : Z),
    run_rust_tutorials w names s = Some (Exited c s') -> c = 1%Z /\ budget w = Unbound.
Proof.
  induction names as [|name names IH]; intros s s' c; cbn [run_rust_tutorials];
    [discriminate|].
  destruct (retry_loop (enough w) w name 1 s) as [[c1 s1|s1]|] eqn:Hloop;
    [|apply IH|discriminate].
  intros H. injection H as <- _. clear IH.
  revert Hloop. generalize (enough w) 1%nat s.
  induction n as [|fuel IH]; intros k s0; [discriminate|].
  cbn [retry_loop]. destruct (attempt_once w name k s0) as [status s2].
  destruct (status =? 0)%Z; [discriminate|].
  unfold budget_used. destruct (budget w) eqn:E.
  - destruct (Z.of_nat k >=? v)%Z; [discriminate|apply IH].
  - apply IH.
  - intros H. injection H as <- _. auto.
Qed.

Lemma prepare_runs_frame (w : World) (s : State) :
  exists es : list Event,
    trace (state_of (prepare_runs w s)) = trace s ++ es
    /\ Forall (fun e => is_playwright e = false) es
    /\ failures (state_of (prepare_runs w s)) = failures s
    /\ rust_names (state_of (prepare_runs w s)) = rust_names s.
Proof.
  unfold prepare_runs.
  destruct (negb (cargo_clean_status w =? 0)%Z); [|destruct (masm_entry w)];
    simpl; rewrite <- ?List.app_assoc; eexists; (split; [reflexivity|]);
    repeat constructor.
Qed.

Lemma rust_block_total (w : World) (s : State) :
  budget w <> Invalid ->
  exists r : Result, rust_block w s = Some r.
Proof.
  intros Hv. unfold rust_block. destruct (run_rust s); [|eauto].
  destruct (and_then _ _) as [c s1|s1]; [eauto|].
  apply run_rust_tutorials_total. exact Hv.
Qed.

Lemma rust_block_frame (w : World) (s : State) (r : Result) :
  rust_block w s = Some r ->
  exists (es : list Event) (fs : list string),
    trace (state_of r) = trace s ++ es
    /\ Forall (fun e => is_playwright e = false) es
    /\ failures (state_of r) = failures s ++ fs
    /\ Forall (fun f => f <> "web") fs.
Proof.
  unfold rust_block. destruct (run_rust s).
  2:{ intros H. injection H as <-. exists [], []. simpl. rewrite !List.app_nil_r. auto. }
  set (s0 := set_rust_names _ s).
  pose proof (validate_only_printed "rust" RUST_EXAMPLES RUST_SKIPPED (rust_names s0) s0)
    as (_ & _ & _ & _ & _ & Hf & Ht & _).
  change (trace s0) with (trace s) in Ht. change (failures s0) with (failures s) in Hf.
  destruct (validate "rust" RUST_EXAMPLES RUST_SKIPPED (rust_names s0) s0)
    as [c s1|s1]; cbn [and_then state_of] in *.
  { intros H. injection H as <-. exists [], []. simpl.
    rewrite !List.app_nil_r. auto. }
  destruct (prepare_runs_frame w s1) as (es1 & Ht1 & Hes1 & Hf1 & _).
  destruct (prepare_runs w s1) as [c s2|s2]; cbn [state_of] in *.
  { intros H. injection H as <-. exists es1, []. simpl.
    rewrite List.app_nil_r, Ht1, Hf1, Ht, Hf. auto. }
  intros Hrun.
  apply run_rust_tutorials_frame in Hrun as (es & fs & Ht3 & Hes & Hf3 & Hfs).
  exists (es1 ++ es), fs.
  rewrite Ht3, Ht1, Ht, Hf3, Hf1, Hf, <- List.app_assoc.
  repeat split; auto. apply Forall_app. auto.
Qed.

Lemma rust_block_skipped (w : World) (s : State) :
  run_rust s = false -> rust_block w s = Some (Running s).
Proof. unfold rust_block. intros ->. reflexivity. Qed.

Lemma rust_block_unknown (w : World) (s : State) :
  run_rust s = true ->
  (exists name, unknown_in RUST_EXAMPLES (rust_names s) name) ->
  exists (name : string) (s' : State) (ls : list Line),
    unknown_in RUST_EXAMPLES (rust_names s) name
    /\ rust_block w s = Some (Exited 1 s')
    /\ trace s' = trace s /\ failures s' = failures s
    /\ output s' = output s ++ ls ++ unknown_lines "rust" RUST_EXAMPLES name.
Proof.
  intros Hrun Hun. unfold rust_block. rewrite Hrun.
  assert (Hsel : selection RUST_EXAMPLES RUST_SKIPPED (rust_names s) = rust_names s).
  { destruct Hun as (name & Hin & _). eapply selection_requested. exact Hin. }
  rewrite Hsel. cbn [rust_names set_rust_names].
  destruct (validate_unknown "rust" RUST_EXAMPLES RUST_SKIPPED (rust_names s) Hun
              (set_rust_names (rust_names s) s)) as (name & s' & ls & Hname & Hv & Hout).
  pose proof (validate_only_printed "rust" RUST_EXAMPLES RUST_SKIPPED (rust_names s)
                (set_rust_names (rust_names s) s)) as Hp.
  rewrite Hv in *. cbn [and_then state_of] in *.
  destruct Hp as (_ & _ & _ & _ & _ & Hf & Ht & _).
  exists name, s', ls. repeat split; auto; apply Hname.
Qed.

(** ** The whole script *)

Lemma run_blocks_total (w : World) (args : list string) :
  budget w <> Invalid ->
  exists r : Result, run_blocks w args = Some r.
Proof.
  intros Hv. unfold run_blocks.
  destruct (parse_args args initial) as [c s|s]; [eauto|].
  destruct (web_block w _) as [c s1|s1]; [eauto|].
  apply rust_block_total. exact Hv.
Qed.

(** An invocation whose budget evaluates comes to an end. *)
Lemma main_total (w : World) (args : list string) :
  budget w <> Invalid ->
  exists o : Outcome, main w args = Some o.
Proof.
  intros Hv. unfold main. destruct (run_blocks_total w args Hv) as (r & ->).
  destruct r as [c s|s]; [eauto|]. destruct (aggregate s). eauto.
Qed.

End ShellFacts.

(** * The claims about the tutorial runner *)

Module RunnerClaims.
Import Word Shell ShellSpec WordFacts ShellFacts.

Lemma filter_none {A : Type} (f : A -> bool) (l : list A) :
  Forall (fun x => f x = false) l -> List.filter f l = [].
Proof.
  induction 1 as [|x l Hx _ IH]; [reflexivity|].
  simpl. rewrite Hx. exact IH.
Qed.




Lemma known_not_unknown (catalog names : list string) (name : string) :
  Forall (fun n => contains n catalog = true) names ->
  unknown_in catalog names name -> False.
Proof.
  intros Hk [Hin Hun]. rewrite Forall_forall in Hk.
  apply list_elem_of_In in Hin. apply Hk in Hin. congruence.
Qed.

Lemma parsed_initial (args : list string) (s0 : State) :
  parse_args args initial = Running s0 ->
  trace s0 = [] /\ failures s0 = [] /\ output s0 = [] /\ consistent s0.
Proof.
  intros H.
  pose proof (parse_args_frame args initial) as (Ht & Hf & _).
  pose proof (parse_args_consistent args initial) as Hc.
  rewrite H in Ht, Hf, Hc. cbn [state_of] in *.
  apply parse_args_running in H.
  repeat split; auto; apply Hc; repeat split; cbn; congruence.
Qed.

(** ** The end-to-end scenarios of the specification, run on the model *)

Example scenario_A_single_success :
  main (Scenario.world EnvUnset 0) [ "--rust=create_mint_consume_send" ]
  = Some {| exit_status := 0;
            printed :=
              [ Out "Cleaning rust build artifacts before running tutorials...";
                Out "Running rust tutorial: create_mint_consume_send (attempt 1/3)";
                Out "Run directory: /repo/rust-client/.tutorial-runs/create_mint_consume_send-20260101-120000-4242-attempt1";
                Out "Output log: /repo/rust-client/.tutorial-runs/create_mint_consume_send-20260101-120000-4242-attempt1/output.log" ];
            performed :=
              [ EvCargoClean "/repo/rust-client/Cargo.toml";
                EvMkdir "/repo/rust-client/.tutorial-runs";
                EvSymlink "../../masm" "/repo/rust-client/.tutorial-runs/masm";
                EvMkdir "/repo/rust-client/.tutorial-runs/create_mint_consume_send-20260101-120000-4242-attempt1";
                EvCargoRun "create_mint_consume_send"
                  "/repo/rust-client/.tutorial-runs/create_mint_consume_send-20260101-120000-4242-attempt1"
                  "/repo/rust-client/.tutorial-runs/create_mint_consume_send-20260101-120000-4242-attempt1/output.log" ];
            recorded := [] |}.
Proof. vm_compute. reflexivity. Qed.

Example scenario_B_two_failures :
  exists o : Outcome,
    main (Scenario.world (EnvInt 2) 1) [ "--rust=create_mint_consume_send" ] = Some o
    /\ exit_status o = 1%Z
    /\ List.length (run_dirs_of (performed o)) = 2%nat
    /\ List.filter is_sleep (performed o) = [ EvSleep 10 ]
    /\ recorded o = [ "rust:create_mint_consume_send" ]
    /\ In (Out "  rust:create_mint_consume_send") (printed o).
Proof.
  eexists. split; [vm_compute; reflexivity|].
  repeat split; try reflexivity. vm_compute. tauto.
Qed.

Example scenario_C_unknown_name :
  main (Scenario.world EnvUnset 0) [ "--rust=does_not_exist" ]
  = Some {| exit_status := 1;
            printed := unknown_lines "rust" RUST_EXAMPLES "does_not_exist";
            performed := [];
            recorded := [] |}.
Proof. vm_compute. reflexivity. Qed.

Example scenario_D_web_only :
  main (Scenario.world EnvUnset 0) [ "--web" ]
  = Some {| exit_status := 0;
            printed :=
              [ Out "Running web tutorials: createMintConsume multiSendWithDelegatedProver unauthenticatedNoteTransfer" ];
            performed :=
              [ EvPlaywright "/repo/web-client"
                  "createMintConsume|multiSendWithDelegatedProver|unauthenticatedNoteTransfer" ];
            recorded := [] |}.
Proof. vm_compute. reflexivity. Qed.

(** ** The budget words of the shell, on examples *)

Example budget_words :
  constant "3" = Some (Value 3)
  /\ constant "0" = Some (Value 0)
  /\ constant "-1" = Some (Value (-1))
  /\ constant "010" = Some (Value 8)
  /\ constant "08" = Some Invalid
  /\ constant "9223372036854775807" = Some (Value 9223372036854775807)
  /\ constant "9223372036854775808" = Some (Value (-9223372036854775808))
  /\ constant "-9223372036854775809" = Some (Value 9223372036854775807)
  /\ constant "1e2" = None
  /\ constant "2.5" = None
  /\ constant "three" = None.
Proof. repeat split; vm_compute; reflexivity. Qed.

(** [TUTORIAL_RETRIES=9223372036854775808], 2^63, wraps around to a
    negative budget: a failing tutorial gets a single attempt. *)
Example scenario_E_wrapped_budget :
  exists s' : State,
    retry_loop (enough (Scenario.world (Some "9223372036854775808") 1))
      (Scenario.world (Some "9223372036854775808") 1) "mapping_example" 1 initial
    = Some (Running s')
    /\ List.length (run_dirs_of (trace s')) = 1%nat
    /\ failures s' = [ "rust:mapping_example" ].
Proof. eexists. split; [vm_compute; reflexivity|]. split; reflexivity. Qed.

(** [TUTORIAL_RETRIES=08] is a malformed octal constant: the budget test
    fails at every pass and a failing tutorial is retried for ever, so that
    the script never ends. *)
Example scenario_F_malformed_budget :
  budget (Scenario.world (Some "08") 1) = Invalid
  /\ (forall fuel : nat,
        retry_loop fuel (Scenario.world (Some "08") 1) "mapping_example" 1 initial = None)
  /\ main (Scenario.world (Some "08") 1) [ "--rust=mapping_example" ] = None.
Proof.
  split; [reflexivity|]. split; [|vm_compute; reflexivity].
  intros fuel. apply retry_loop_never_ends; [reflexivity|]. intros n. simpl. lia.
Qed.

(** [TUTORIAL_RETRIES=010] is octal for 8. *)
Example scenario_G_octal_budget :
  exists s' : State,
    retry_loop (enough (Scenario.world (Some "010") 1))
      (Scenario.world (Some "010") 1) "mapping_example" 1 initial
    = Some (Running s')
    /\ List.length (run_dirs_of (trace s')) = 8%nat.
Proof. eexists. split; [vm_compute; reflexivity|]. reflexivity. Qed.




(** C2. When an invocation reaches the last command of the script, its exit
    status is 0 exactly when no failure was recorded; otherwise the status
    is 1 and the lines printed last are an empty line, [Failures:] and one
    indented line per recorded tag, in order. *)
Theorem C2_exit_status_reports_failures (w : World) (args : list string) (s : State) :
  run_blocks w args = Some (Running s) ->
  exists o : Outcome,
    main w args = Some o
    /\ recorded o = failures s
    /\ performed o = trace s
    /\ (exit_status o = 0%Z <-> failures s = [])
    /\ (failures s = [] -> printed o = output s)
    /\ (failures s <> [] ->
        exit_status o = 1%Z
        /\ printed o = output s ++ failure_lines (failures s)
        /\ forall tag, In tag (failures s) -> In (Out ("  " +:+ tag)) (printed o)).
Proof.
  intros Hrun. unfold main. rewrite Hrun. unfold aggregate.
  destruct (0 <? List.length (failures s))%nat eqn:E.
  - apply Nat.ltb_lt in E.
    assert (Hne : failures s <> []) by (intros Hnil; rewrite Hnil in E; simpl in E; lia).
    eexists. split; [reflexivity|]. cbn [finish exit_status recorded performed printed].
    split; [reflexivity|]. split; [reflexivity|].
    split; [split; [discriminate|intros Hnil; contradiction]|].
    split; [intros Hnil; contradiction|].
    intros _. split; [reflexivity|]. split; [reflexivity|].
    intros tag Hin. cbn [print output]. apply List.in_or_app. right.
    unfold failure_lines. apply List.in_or_app. right.
    apply (List.in_map (fun t => Out ("  " +:+ t))). exact Hin.
  - apply Nat.ltb_ge in E.
    assert (Hnil : failures s = []) by (destruct (failures s); [reflexivity|simpl in E; lia]).
    eexists. split; [reflexivity|]. cbn [finish exit_status recorded performed printed].
    split; [reflexivity|]. split; [reflexivity|].
    split; [split; auto|]. split; [reflexivity|].
    intros Hne. contradiction.
Qed.

Lemma C2_exit_status_reports_failures_witness :
  exists o : Outcome,
    main (Scenario.world (EnvInt 1) 1) [ "--rust=mapping_example" ] = Some o
    /\ exit_status o = 1%Z
    /\ In (Out "  rust:mapping_example") (printed o).
Proof.
  destruct (C2_exit_status_reports_failures (Scenario.world (EnvInt 1) 1)
              [ "--rust=mapping_example" ]
              (state_of (default (Running initial)
                 (run_blocks (Scenario.world (EnvInt 1) 1) [ "--rust=mapping_example" ]))))
    as (o & Hm & _ & _ & _ & _ & Hfail).
  - vm_compute. reflexivity.
  - exists o. split; [exact Hm|].
    destruct Hfail as (Hc & _ & Hin).
    + vm_compute. discriminate.
    + split; [exact Hc|]. apply (Hin "rust:mapping_example"). vm_compute. auto.
Defined.




(** C4 (counterexample). [--web --rust=does_not_exist]: the name is not in
    the rust catalog, and yet the browser suite has been run by the time
    the name is rejected. *)
Lemma C4_browser_suite_runs_first :
  contains "does_not_exist" RUST_EXAMPLES = false
  /\ exists o : Outcome,
       main (Scenario.world EnvUnset 0) [ "--web"; "--rust=does_not_exist" ] = Some o
       /\ List.filter is_example_run (performed o)
          = [ EvPlaywright "/repo/web-client"
                "createMintConsume|multiSendWithDelegatedProver|unauthenticatedNoteTransfer" ].
Proof. split; [reflexivity|]. eexists. split; vm_compute; reflexivity. Qed.

(** C4 (amended). When the command line is parsed to its end and a
    requested name is missing from the catalog of its class, the process
    prints, as its last two lines, [Unknown <class> tutorial: <name>] and the
    catalog of that class for such a name, and exits with status 1; it
    creates no directory and runs no rust tutorial.  For an unknown web name
    nothing at all is run; for an unknown rust name the only thing that can
    have run is the browser suite, once. *)
Theorem C4_unknown_name (w : World) (args : list string) (s0 : State) :
  parse_args args initial = Running s0 ->
  (exists name, unknown_in WEB_EXAMPLES (web_names s0) name
                \/ unknown_in RUST_EXAMPLES (rust_names s0) name) ->
  exists (o : Outcome) (class : string) (catalog : list string)
         (name : string) (ls : list Line),
    main w args = Some o
    /\ exit_status o = 1%Z
    /\ printed o = ls ++ unknown_lines class catalog name
    /\ ((class = "web" /\ catalog = WEB_EXAMPLES
         /\ unknown_in WEB_EXAMPLES (web_names s0) name
         /\ performed o = [])
        \/ (class = "rust" /\ catalog = RUST_EXAMPLES
            /\ unknown_in RUST_EXAMPLES (rust_names s0) name
            /\ (performed o = []
                \/ exists pattern, performed o = [ EvPlaywright (WEB_DIR w) pattern ])))
    /\ ((exists n, unknown_in WEB_EXAMPLES (web_names s0) n) -> performed o = [])
    /\ created_dirs (performed o) = []
    /\ run_dirs_of (performed o) = []
    /\ List.filter (fun e => negb (is_playwright e)) (performed o) = [].
Proof.
  intros Hparse Hun.
  destruct (parsed_initial args s0 Hparse) as (Ht0 & Hf0 & Ho0 & Hw & Hr & Hsw & Hsr).
  assert (Hsaw : saw_selector s0 = true).
  { destruct Hun as (name & [[Hin _]|[Hin _]]).
    - apply Hsw, Hw. intros Hnil. rewrite Hnil in Hin. destruct Hin.
    - apply Hsr, Hr. intros Hnil. rewrite Hnil in Hin. destruct Hin. }
  unfold main, run_blocks. rewrite Hparse, Hsaw. cbn [negb].
  destruct (known_or_unknown WEB_EXAMPLES (web_names s0)) as [Hknown|Hweb].
  - (* every web name is known: the unknown name is a rust name *)
    assert (Hrust : exists name, unknown_in RUST_EXAMPLES (rust_names s0) name).
    { destruct Hun as (name & [Hbad|Hbad]); [|eauto].
      destruct (known_not_unknown _ _ _ Hknown Hbad). }
    assert (Hrr : run_rust s0 = true).
    { destruct Hrust as (name & Hin & _). apply Hr.
      intros Hnil. rewrite Hnil in Hin. destruct Hin. }
    assert (Hweb : exists s1, web_block w s0 = Running s1
                     /\ run_rust s1 = true /\ rust_names s1 = rust_names s0
                     /\ (trace s1 = []
                         \/ exists pattern, trace s1 = [ EvPlaywright (WEB_DIR w) pattern ])).
    { destruct (run_web s0) eqn:Hrw.
      - destruct (web_block_known w s0 Hrw) as (s1 & Hb & Ht1 & _ & Hrr1 & Hrn1 & _).
        { apply selection_known; [apply web_defaults_known|exact Hknown]. }
        exists s1. rewrite Hrr1, Hrn1, Ht1, Ht0. repeat split; auto.
        right. eexists. reflexivity.
      - exists s0. rewrite web_block_skipped by exact Hrw. repeat split; auto. }
    destruct Hweb as (s1 & -> & Hrr1 & Hrn1 & Ht1).
    rewrite <- Hrn1 in Hrust.
    destruct (rust_block_unknown w s1 Hrr1 Hrust)
      as (name & s' & ls & Hname & -> & Ht' & _ & Hout).
    exists (finish 1 s'), "rust", RUST_EXAMPLES, name, (output s1 ++ ls).
    cbn [finish exit_status printed performed].
    rewrite Hout, Ht', <- List.app_assoc, Hrn1 in *.
    split; [reflexivity|]. split; [reflexivity|]. split; [reflexivity|].
    split; [right; repeat split; try apply Hname; exact Ht1|].
    split; [intros (n & Hbad); destruct (known_not_unknown _ _ _ Hknown Hbad)|].
    destruct Ht1 as [->|(pattern & ->)]; repeat split; reflexivity.
  - (* some web name is unknown: the web block ends the process *)
    assert (Hrw : run_web s0 = true).
    { destruct Hweb as (name & Hin & _). apply Hw.
      intros Hnil. rewrite Hnil in Hin. destruct Hin. }
    destruct (web_block_unknown w s0 Hrw Hweb)
      as (name & s' & ls & Hname & -> & Ht' & _ & Hout).
    exists (finish 1 s'), "web", WEB_EXAMPLES, name, ls.
    cbn [finish exit_status printed performed].
    rewrite Hout, Ht', Ht0, Ho0.
    split; [reflexivity|]. split; [reflexivity|]. split; [reflexivity|].
    split; [left; repeat split; apply Hname|].
    repeat split; reflexivity.
Qed.

Lemma C4_unknown_name_witness :
  exists (o : Outcome) (ls : list Line),
    main (Scenario.world EnvUnset 0) [ "--rust=does_not_exist" ] = Some o
    /\ exit_status o = 1%Z
    /\ run_dirs_of (performed o) = []
    /\ printed o = ls ++ unknown_lines "rust" RUST_EXAMPLES "does_not_exist".
Proof.
  destruct (C4_unknown_name (Scenario.world EnvUnset 0) [ "--rust=does_not_exist" ]
              (add_rust_names "does_not_exist" (select_rust initial)))
    as (o & class & catalog & name & ls & Hm & Hc & Hp & Hcase & _ & _ & Hd & _).
  - reflexivity.
  - exists "does_not_exist". right. split; [left; reflexivity|reflexivity].
  - exists o, ls. split; [exact Hm|]. split; [exact Hc|]. split; [exact Hd|].
    destruct Hcase as [(_ & _ & (Hin & _) & _)|(-> & -> & (Hin & _) & _)].
    + destruct Hin.
    + destruct Hin as [<-|[]]. exact Hp.
Defined.

(** C5. When the browser class is selected and its selection holds known
    names only, the browser block starts the browser suite exactly once,
    with the names joined by [|] as its filter, whatever the suite's exit
    status; a non-zero status records the tag [web] exactly once, a zero
    status records none.  The rust block that follows starts no suite and
    records no such tag: whenever the invocation ends, its whole trace holds
    that one call and its failures that one tag at most.  The invocation
    ends whenever the rust class is not selected or the retry budget
    evaluates. *)
Theorem C5_browser_suite_once (w : World) (args : list string) (s0 : State) :
  parse_args args initial = Running s0 ->
  run_web s0 = true \/ saw_selector s0 = false ->
  Forall (fun name => contains name WEB_EXAMPLES = true)
         (selection WEB_EXAMPLES WEB_SKIPPED (web_names s0)) ->
  (exists s1 : State,
     web_block w (RunnerSpec.effective s0) = Running s1
     /\ trace s1
        = [ EvPlaywright (WEB_DIR w)
              (join "|" (selection WEB_EXAMPLES WEB_SKIPPED (web_names s0))) ]
     /\ failures s1
        = if (playwright_status w
                (join "|" (selection WEB_EXAMPLES WEB_SKIPPED (web_names s0))) =? 0)%Z
          then [] else [ "web" ])
  /\ (forall o : Outcome,
        main w args = Some o ->
        List.filter is_playwright (performed o)
        = [ EvPlaywright (WEB_DIR w)
              (join "|" (selection WEB_EXAMPLES WEB_SKIPPED (web_names s0))) ]
        /\ List.filter is_web_tag (recorded o)
           = if (playwright_status w
                   (join "|" (selection WEB_EXAMPLES WEB_SKIPPED (web_names s0))) =? 0)%Z
             then [] else [ "web" ])
  /\ (run_rust (RunnerSpec.effective s0) = false \/ budget w <> Invalid ->
      exists o : Outcome, main w args = Some o).
Proof.
  intros Hparse Hsel Hknown.
  destruct (parsed_initial args s0 Hparse) as (Ht0 & Hf0 & _ & _ & _ & Hsw & _).
  unfold RunnerSpec.effective.
  set (s := if negb (saw_selector s0) then run_both s0 else s0).
  assert (Hs : run_web s = true /\ web_names s = web_names s0
               /\ trace s = [] /\ failures s = []).
  { subst s. destruct (saw_selector s0) eqn:Hsaw; cbn [negb].
    - destruct Hsel as [Hrw|Hno]; [auto|discriminate].
    - simpl. auto. }
  destruct Hs as (Hrw & Hwn & Ht & Hf).
  rewrite <- Hwn in *.
  destruct (web_block_known w s Hrw Hknown) as (s1 & Hweb & Ht1 & Hf1 & Hrr1 & _).
  rewrite Ht in Ht1. rewrite Hf in Hf1. cbn [List.app] in Ht1, Hf1.
  split; [exists s1; auto|].
  assert (Hframe : forall r : Result,
             rust_block w s1 = Some r ->
             List.filter is_playwright (trace (state_of r))
             = [ EvPlaywright (WEB_DIR w)
                   (join "|" (selection WEB_EXAMPLES WEB_SKIPPED (web_names s))) ]
             /\ List.filter is_web_tag (failures (state_of r))
                = if (playwright_status w
                        (join "|" (selection WEB_EXAMPLES WEB_SKIPPED (web_names s))) =? 0)%Z
                  then [] else [ "web" ]).
  { intros r Hrust.
    destruct (rust_block_frame w s1 r Hrust) as (es & fs & Ht2 & Hes & Hf2 & Hfs).
    split.
    - rewrite Ht2, Ht1, List.filter_app, (filter_none _ es Hes). reflexivity.
    - rewrite Hf2, Hf1, List.filter_app.
      rewrite (filter_none is_web_tag fs).
      + destruct (_ =? 0)%Z; reflexivity.
      + eapply Forall_impl; [exact Hfs|]. intros f Hne. apply String.eqb_neq. exact Hne. }
  unfold main, run_blocks. rewrite Hparse. fold s. rewrite Hweb. split.
  - intros o. destruct (rust_block w s1) as [r|] eqn:Hrust; [|discriminate].
    destruct (Hframe r eq_refl) as (Hevents & Htags).
    destruct r as [c s2|s2]; cbn [state_of] in *.
    + intros H. injection H as <-. split; assumption.
    + unfold aggregate. destruct (0 <? _)%nat;
        intros H; injection H as <-; split; assumption.
  - intros Hends.
    assert (Hrust : exists r : Result, rust_block w s1 = Some r).
    { destruct Hends as [Hoff|Hv]; [|apply rust_block_total; exact Hv].
      rewrite rust_block_skipped by congruence. eauto. }
    destruct Hrust as ([c s2|s2] & ->); [eauto|].
    destruct (aggregate s2). eauto.
Qed.

Lemma C5_browser_suite_once_witness :
  exists o : Outcome,
    main (Scenario.world EnvUnset 0) [ "--web=createMintConsume,foreignProcedureInvocation" ]
      = Some o
    /\ List.filter is_playwright (performed o)
       = [ EvPlaywright "/repo/web-client" "createMintConsume|foreignProcedureInvocation" ].
Proof.
  destruct (C5_browser_suite_once (Scenario.world EnvUnset 0)
              [ "--web=createMintConsume,foreignProcedureInvocation" ]
              (add_web_names "createMintConsume,foreignProcedureInvocation"
                 (select_web initial)))
    as (_ & Hall & Hends).
  - reflexivity.
  - left. reflexivity.
  - repeat constructor.
  - destruct Hends as (o & Hm); [left; reflexivity|].
    exists o. split; [exact Hm|]. apply Hall. exact Hm.
Defined.

(** C6 (counterexample). [--rust=mapping_example,mapping_example] with a
    clock that shows the same second for both runs: the two attempts, both
    numbered 1 in the same process, are given the same directory. *)
Lemma C6_same_second_same_directory :
  exists (o : Outcome) (dir : string),
    main (Scenario.world EnvUnset 0) [ "--rust=mapping_example,mapping_example" ] = Some o
    /\ run_dirs_of (performed o) = [ dir; dir ]
    /\ ~ List.NoDup (run_dirs_of (performed o)).
Proof.
  eexists. eexists. split; [vm_compute; reflexivity|].
  split; [vm_compute; reflexivity|].
  intros Hnd. inversion Hnd as [|? ? Hnotin _]. apply Hnotin. left. reflexivity.
Qed.

(** C6 (amended). The directory of an attempt is named from the tutorial,
    the time stamp, the process id and the attempt number, and the name
    determines the four of them: two attempts under the same root whose
    time stamps have the same length share a directory only if they agree
    on tutorial, time stamp, process id and attempt number.  In particular
    the attempts of one retry loop get pairwise different directories,
    whatever their exit statuses and the clock. *)
Theorem C6_run_directories :
  (forall (w w' : World) (name name' now now' : string) (k k' : nat),
     ROOT_DIR w = ROOT_DIR w' ->
     String.length now = String.length now' ->
     run_dir w name now k = run_dir w' name' now' k' ->
     name = name' /\ now = now' /\ pid w = pid w' /\ k = k')
  /\ (forall (w : World) (name : string) (fuel k : nat) (s : State) (r : Result),
        retry_loop fuel w name k s = Some r ->
        exists es : list Event,
          trace (state_of r) = trace s ++ es
          /\ created_dirs es = run_dirs_of es
          /\ List.NoDup (run_dirs_of es)).
Proof.
  split.
  - intros. eapply run_dir_inj; eassumption.
  - intros w name fuel k s r Hloop.
    apply retry_loop_shape in Hloop as (m & _ & Ht & _).
    eexists. split; [exact Ht|].
    split; [apply created_dirs_attempts|apply NoDup_run_dirs_of_attempts].
Qed.

Lemma C6_run_directories_witness :
  run_dir (Scenario.world EnvUnset 0) "mapping_example" "20260101-120000" 1
  <> run_dir (Scenario.world EnvUnset 0) "mapping_example" "20260101-120001" 1.
Proof.
  intros Heq.
  destruct C6_run_directories as [Hinj _].
  destruct (Hinj (Scenario.world EnvUnset 0) (Scenario.world EnvUnset 0)
              "mapping_example" "mapping_example"
              "20260101-120000" "20260101-120001" 1%nat 1%nat)
    as (_ & Hnow & _).
  - reflexivity.
  - reflexivity.
  - exact Heq.
  - discriminate Hnow.
Defined.

(** C7 (counterexample). [--bogus --list] holds the listing flag, but the
    unknown argument comes first: the process exits with status 1 and the
    catalogs are not printed. *)
Lemma C7_unknown_argument_before_list :
  In "--list" [ "--bogus"; "--list" ]
  /\ exists o : Outcome,
       main (Scenario.world EnvUnset 0) [ "--bogus"; "--list" ] = Some o
       /\ exit_status o = 1%Z
       /\ printed o <> listing.
Proof.
  split; [right; left; reflexivity|].
  eexists. split; [vm_compute; reflexivity|].
  split; [reflexivity|]. vm_compute. discriminate.
Qed.

(** C7 (amended). An invocation with [--list] among its arguments never
    gets past argument parsing: no directory is created, nothing is run and
    no failure is recorded.  When only class flags ([--web], [--rust], with
    or without [=names]) come before it, the process prints, for the web
    class and then for the rust class, the default names followed by the
    names skipped by default, and exits with status 0. *)
Theorem C7_list :
  (forall (w : World) (args : list string),
     In "--list" args ->
     exists o : Outcome,
       main w args = Some o /\ performed o = [] /\ recorded o = []
       /\ (exit_status o = 0%Z \/ exit_status o = 1%Z))
  /\ (forall (w : World) (pre post : list string),
        Forall (fun a => is_class_flag a = true) pre ->
        main w (pre ++ "--list" :: post)
        = Some {| exit_status := 0; printed := listing; performed := []; recorded := [] |})
  /\ listing
     = [ Out "Web tutorials (default):" ]
       ++ indented [ "createMintConsume"; "multiSendWithDelegatedProver";
                     "unauthenticatedNoteTransfer" ]
       ++ [ Out ""; Out "Web tutorials (skipped by default):" ]
       ++ indented WEB_SKIPPED
       ++ [ Out ""; Out "Rust tutorials (default):" ]
       ++ indented [ "counter_contract_deploy"; "create_mint_consume_send";
                     "delegated_prover"; "hash_preimage_note"; "mapping_example";
                     "network_notes_counter_contract"; "note_creation_in_masm";
                     "unauthenticated_note_transfer" ]
       ++ [ Out ""; Out "Rust tutorials (skipped by default):" ]
       ++ indented RUST_SKIPPED.
Proof.
  split; [|split; [|reflexivity]].
  - intros w args Hin.
    destruct (parse_args_list args initial Hin) as (c & s' & Hparse).
    pose proof (parse_args_frame args initial) as (Ht & Hf & _).
    pose proof (parse_args_status args initial s' c Hparse) as Hc.
    rewrite Hparse in Ht, Hf. cbn [state_of] in Ht, Hf.
    unfold main, run_blocks. rewrite Hparse.
    eexists. split; [reflexivity|]. cbn [finish performed recorded exit_status].
    auto.
  - intros w pre post Hpre.
    destruct (parse_args_class_flags pre post Hpre initial) as (s' & Hparse & Ho & Ht & Hf).
    unfold main, run_blocks. rewrite Hparse. unfold finish.
    cbn [print output trace failures]. rewrite Ho, Ht, Hf. reflexivity.
Qed.

Lemma C7_list_witness :
  main (Scenario.world EnvUnset 1) [ "--rust=no_such_name"; "--web"; "--list"; "-h" ]
  = Some {| exit_status := 0; printed := listing; performed := []; recorded := [] |}.
Proof.
  destruct C7_list as (_ & Hlist & _).
  apply (Hlist (Scenario.world EnvUnset 1) [ "--rust=no_such_name"; "--web" ] [ "-h" ]).
  repeat constructor.
Defined.

End RunnerClaims.

(** * The claims about the browser test page *)

Module PageClaims.
Import Page.

Lemma status_of_set_cell (key : string) (value : bool) (s : PageState) (name : string) :
  status_of (set_cell key value s) name = status_of s name.
Proof. reflexivity. Qed.

Lemma cells_set_cell (key : string) (value : bool) (s : PageState) :
  cells (set_cell key value s) !! key = Some value.
Proof. unfold set_cell. simpl. apply lookup_insert_eq. Qed.

Lemma status_of_update_eq (name : string) (st : TutorialState)
    (err : option js_value) (s : PageState) :
  status_of (updateTutorialStatus true name st err s) name
  = Some {| state := st; error := error_text err |}.
Proof. unfold updateTutorialStatus, status_of. simpl. apply lookup_insert_eq. Qed.

Lemma status_of_update_ne (has_window : bool) (name other : string) (st : TutorialState)
    (err : option js_value) (s : PageState) :
  other <> name ->
  status_of (updateTutorialStatus has_window name st err s) other = status_of s other.
Proof.
  intros Hne. unfold updateTutorialStatus, status_of.
  destruct has_window; [|reflexivity]. simpl.
  rewrite lookup_insert_ne by congruence.
  destruct (tutorialStatus s); [reflexivity|apply lookup_empty].
Qed.

(** What [runTutorial] does, by the way the action settles. *)
Lemma runTutorial_unfold (has_window : bool) (name : string) (action : Async unit)
    (setIsRunning : bool -> PageState -> PageState) (s : PageState) :
  runTutorial has_window name action setIsRunning s
  = match action (updateTutorialStatus has_window name running None (setIsRunning true s)) with
    | None => None
    | Some (Fulfilled _, s1) =>
        Some (Fulfilled tt,
              setIsRunning false (updateTutorialStatus has_window name passed None s1))
    | Some (Rejected (Plain v), s1) =>
        Some (Fulfilled tt,
              setIsRunning false
                (updateTutorialStatus has_window name failed (Some v)
                   (console_error ("[tutorial:" +:+ name +:+ "]") (Plain v) s1)))
    | Some (Rejected (Unprintable raised), s1) =>
        Some (if has_window then Rejected raised else Fulfilled tt,
              setIsRunning false
                (console_error ("[tutorial:" +:+ name +:+ "]") (Unprintable raised) s1))
    end.
Proof.
  unfold runTutorial, seq, sync, try_catch_finally, updateTutorialStatus_thrown.
  destruct (action _) as [[[[]|[v|raised]] s1]|]; try reflexivity.
  destruct has_window; reflexivity.
Qed.

(** C8 (the input on which the code fails).  The action rejects with a
    value whose text cannot be computed, as [Object.create(null)]: the
    [catch] block logs it and then throws in [updateTutorialStatus], so
    that [runTutorial] itself rejects, with the [TypeError] of the
    conversion, and the status of the tutorial is left at [running] instead
    of [failed]; the [finally] block still resets the cell. *)
Lemma C8_rejection_without_text :
  exists s' : PageState,
    runTutorial true "createMintConsume" Scenario.rejects_without_text
      (set_cell "isCreatingNotes") Scenario.empty_page
    = Some (Rejected
              (Plain (JsError "TypeError" "Cannot convert object to primitive value")), s')
    /\ status_of s' "createMintConsume" = Some {| state := running; error := None |}
    /\ console s' = [ ("[tutorial:createMintConsume]", Scenario.no_text) ]
    /\ cells s' !! "isCreatingNotes" = Some false.
Proof.
  eexists. split; [reflexivity|]. split; [|split; [reflexivity|]].
  - rewrite status_of_set_cell.
    change (status_of (console_error ?l ?e ?s) ?n) with (status_of s n).
    apply status_of_update_eq.
  - apply cells_set_cell.
Qed.

(** C9. [updateTutorialStatus] for one tutorial leaves the entry of every
    other tutorial as it was, as well as the rest of the page; in a browser
    the entry of the tutorial itself becomes the given state with the text
    of the error, and outside a browser nothing is written.  A call that
    throws, because the text of the error cannot be computed, leaves the
    whole page as it was. *)
Theorem C9_update_frame (has_window : bool) (name other : string) (st : TutorialState)
    (err : option js_value) (s : PageState) :
  other <> name ->
  status_of (updateTutorialStatus has_window name st err s) other = status_of s other
  /\ cells (updateTutorialStatus has_window name st err s) = cells s
  /\ console (updateTutorialStatus has_window name st err s) = console s
  /\ (has_window = true ->
      status_of (updateTutorialStatus has_window name st err s) name
      = Some {| state := st; error := error_text err |})
  /\ (has_window = false -> updateTutorialStatus has_window name st err s = s)
  /\ (forall (e : thrown) (r : Settled unit) (s' : PageState),
        updateTutorialStatus_thrown has_window name st e s = Some (r, s') ->
        status_of s' other = status_of s other
        /\ (forall raised, r = Rejected raised -> s' = s)).
Proof.
  intros Hne. split; [apply status_of_update_ne; exact Hne|].
  split; [destruct has_window; reflexivity|].
  split; [destruct has_window; reflexivity|].
  split; [intros ->; apply status_of_update_eq|].
  split; [intros ->; reflexivity|].
  intros e r s'. unfold updateTutorialStatus_thrown.
  destruct e as [v|raised]; [|destruct has_window];
    intros H; injection H as <- <-;
    (split; [try reflexivity; apply status_of_update_ne; exact Hne|]);
    intros raised' Hr; (discriminate Hr || reflexivity).
Qed.

Lemma C9_update_frame_witness :
  status_of
    (updateTutorialStatus true "createMintConsume" passed None
       (updateTutorialStatus true "incrementCounterContract" running None
          Scenario.empty_page))
    "incrementCounterContract"
  = Some {| state := running; error := None |}.
Proof.
  destruct (C9_update_frame true "createMintConsume" "incrementCounterContract" passed None
              (updateTutorialStatus true "incrementCounterContract" running None
                 Scenario.empty_page)) as (Hother & _).
  - discriminate.
  - rewrite Hother. apply status_of_update_eq.
Defined.

(** C10. In a browser, the entry of the tutorial is [running] when the
    action is invoked: the call depends on the action only through what the
    action does from states whose entry is [running].  When the call is
    fulfilled the entry is either [passed], and then the action was
    fulfilled, or [failed] with the text of the error the action rejected
    with.  The call itself rejects only when the action rejects with a value
    whose text cannot be computed: the entry is then the one the action
    left, [running] unless the action wrote it. *)
Theorem C10_status_lifecycle (name key : string) (action : Async unit) (s : PageState) :
  (forall action' : Async unit,
     (forall s0, status_of s0 name = Some {| state := running; error := None |} ->
                 action s0 = action' s0) ->
     runTutorial true name action (set_cell key) s
     = runTutorial true name action' (set_cell key) s)
  /\ (forall s',
        runTutorial true name action (set_cell key) s = Some (Fulfilled tt, s') ->
        (status_of s' name = Some {| state := passed; error := None |}
         /\ exists s1,
              action (updateTutorialStatus true name running None (set_cell key true s))
              = Some (Fulfilled tt, s1))
        \/ (exists v s1,
              action (updateTutorialStatus true name running None (set_cell key true s))
              = Some (Rejected (Plain v), s1)
              /\ status_of s' name
                 = Some {| state := failed; error := error_text (Some v) |}))
  /\ (forall raised s',
        runTutorial true name action (set_cell key) s = Some (Rejected raised, s') ->
        exists s1,
          action (updateTutorialStatus true name running None (set_cell key true s))
          = Some (Rejected (Unprintable raised), s1)
          /\ status_of s' name = status_of s1 name).
Proof.
  split; [|split].
  - intros action' Hsame. rewrite !runTutorial_unfold.
    rewrite <- Hsame; [reflexivity|]. apply status_of_update_eq.
  - intros s'. rewrite runTutorial_unfold.
    destruct (action _) as [[[[]|[v|raised]] s1]|] eqn:Hact; intros H;
      try discriminate H; injection H as <-.
    + left. split; [|eauto]. rewrite status_of_set_cell. apply status_of_update_eq.
    + right. exists v, s1. split; [reflexivity|].
      rewrite status_of_set_cell. apply status_of_update_eq.
  - intros raised' s'. rewrite runTutorial_unfold.
    destruct (action _) as [[[[]|[v|raised]] s1]|] eqn:Hact; intros H;
      try discriminate H; injection H as <- <-.
    exists s1. split; reflexivity.
Qed.

Lemma C10_status_lifecycle_witness :
  exists s',
    runTutorial true "multiSendWithDelegatedProver" Scenario.fulfils
      (set_cell "isMultiSendNotes") Scenario.empty_page
    = Some (Fulfilled tt, s')
    /\ status_of s' "multiSendWithDelegatedProver"
       = Some {| state := passed; error := None |}.
Proof.
  destruct (C10_status_lifecycle "multiSendWithDelegatedProver" "isMultiSendNotes"
              Scenario.fulfils Scenario.empty_page) as (_ & Hend & _).
  destruct (runTutorial true "multiSendWithDelegatedProver" Scenario.fulfils
              (set_cell "isMultiSendNotes") Scenario.empty_page)
    as [[[[]|raised] s']|] eqn:Hrun; [|discriminate Hrun|discriminate Hrun].
  destruct (Hend s' eq_refl) as [(Hst & _)|(v & s1 & Hrej & _)].
  - exists s'. split; [reflexivity|exact Hst].
  - discriminate Hrej.
Defined.

End PageClaims.

(** * Further properties of the tutorial runner *)

Module RunnerExtras.
Import Word Shell ShellSpec RunnerSpec WordFacts ShellFacts RunnerClaims.

(** ** Catalog lookups *)

Lemma contains_true_iff (needle : string) (items : list string) :
  contains needle items = true <-> In needle items.
Proof.
  induction items as [|item items IH]; simpl.
  - split; [discriminate|intros []].
  - destruct (String.eqb item needle) eqn:E.
    + apply String.eqb_eq in E. split; auto.
    + apply String.eqb_neq in E. rewrite IH. split; [auto|].
      intros [H|H]; [contradiction|exact H].
Qed.

(** X1. [contains] answers membership: it succeeds exactly for the names
    that occur in the array. *)
Theorem X1_contains_In (needle : string) (items : list string) :
  contains needle items = true <-> In needle items.
Proof. apply contains_true_iff. Qed.

(** X2. When no name is requested, a class runs the names of its catalog
    that are not skipped by default, and only those, in catalog order. *)
Theorem X2_default_selection (catalog skipped : list string) :
  (forall name, In name (selection catalog skipped [])
                <-> In name catalog /\ ~ In name skipped)
  /\ selection catalog skipped [] `sublist_of` catalog.
Proof.
  change (selection catalog skipped []) with (defaults catalog skipped).
  unfold defaults. split.
  - intros name. rewrite List.filter_In, negb_true_iff.
    rewrite <- (contains_true_iff name skipped).
    destruct (contains name skipped); split; intros [H1 H2]; split; auto; congruence.
  - induction catalog as [|n catalog IH]; simpl; [constructor|].
    destruct (negb (contains n skipped)); [apply sublist_skip|apply sublist_cons]; exact IH.
Qed.

(** ** Comma-separated names *)

Lemma has_char_app (c : ascii) (a b : string) :
  has_char c (a +:+ b) = has_char c a || has_char c b.
Proof.
  induction a as [|x a IH]; [reflexivity|].
  rewrite str_app_cons. simpl. rewrite IH. apply orb_assoc.
Qed.

Lemma fields_whole (sep : ascii) (a : string) :
  has_char sep a = false -> fields sep a = [a].
Proof.
  induction a as [|x a IH]; [reflexivity|].
  simpl. intros H. apply orb_false_iff in H as [Hx Ha].
  rewrite Hx, (IH Ha). reflexivity.
Qed.

Lemma fields_app (sep : ascii) (a b : string) :
  has_char sep a = false ->
  fields sep (a +:+ String sep b) = a :: fields sep b.
Proof.
  induction a as [|x a IH]; intros H.
  - rewrite str_app_nil_l. simpl. rewrite Ascii.eqb_refl. reflexivity.
  - simpl in H. apply orb_false_iff in H as [Hx Ha].
    rewrite str_app_cons. simpl. rewrite Hx, (IH Ha). reflexivity.
Qed.

Lemma fields_no_sep (sep : ascii) (s : string) :
  Forall (fun f => has_char sep f = false) (fields sep s).
Proof.
  induction s as [|c s IH]; simpl; [repeat constructor|].
  destruct (Ascii.eqb c sep) eqn:E; [constructor; [reflexivity|exact IH]|].
  destruct (fields sep s) as [|f fs]; [repeat constructor; simpl; rewrite E; reflexivity|].
  inversion IH as [|? ? Hf Hfs]; subst.
  constructor; [simpl; rewrite E, Hf; reflexivity|exact Hfs].
Qed.

Lemma first_line_whole (s : string) :
  has_char newline s = false -> first_line s = s.
Proof.
  induction s as [|c s IH]; [reflexivity|].
  simpl. intros H. apply orb_false_iff in H as [Hc Hs].
  rewrite Hc, (IH Hs). reflexivity.
Qed.

Lemma plain_name_facts (n : string) :
  plain_name n = true ->
  nonempty n = true /\ has_char ","%char n = false /\ has_char newline n = false.
Proof.
  unfold plain_name. intros H.
  apply andb_true_iff in H as [H H3]. apply andb_true_iff in H as [H1 H2].
  apply negb_true_iff in H2, H3. auto.
Qed.

Lemma join_cons (sep n n' : string) (ns : list string) :
  join sep (n :: n' :: ns) = n +:+ sep +:+ join sep (n' :: ns).
Proof. reflexivity. Qed.

Lemma has_char_join (c : ascii) (names : list string) :
  Forall (fun n => has_char c n = false) names ->
  has_char c ","%string = false ->
  has_char c (join "," names) = false.
Proof.
  intros Hn Hsep. induction Hn as [|n ns Hc _ IH]; [reflexivity|].
  destruct ns as [|n' ns]; [exact Hc|].
  rewrite join_cons, !has_char_app, Hc, Hsep, IH. reflexivity.
Qed.

Lemma fields_join (names : list string) :
  names <> [] ->
  Forall (fun n => has_char ","%char n = false) names ->
  fields ","%char (join "," names) = names.
Proof.
  intros Hne Hn. induction Hn as [|n ns Hc Hns IH]; [contradiction|].
  destruct ns as [|n' ns]; [apply fields_whole; exact Hc|].
  rewrite join_cons.
  change ("," +:+ join "," (n' :: ns)) with (String ","%char (join "," (n' :: ns))).
  rewrite fields_app by exact Hc. f_equal. apply IH. discriminate.
Qed.

Lemma parts_of_join (names : list string) :
  Forall (fun n => plain_name n = true) names ->
  parts_of (join "," names) = names.
Proof.
  intros Hplain.
  assert (H1 : Forall (fun n => nonempty n = true) names).
  { eapply Forall_impl; [exact Hplain|]. intros n Hn. apply plain_name_facts in Hn. tauto. }
  assert (H2 : Forall (fun n => has_char ","%char n = false) names).
  { eapply Forall_impl; [exact Hplain|]. intros n Hn. apply plain_name_facts in Hn. tauto. }
  assert (H3 : Forall (fun n => has_char newline n = false) names).
  { eapply Forall_impl; [exact Hplain|]. intros n Hn. apply plain_name_facts in Hn. tauto. }
  unfold parts_of.
  rewrite first_line_whole by (apply has_char_join; [exact H3|reflexivity]).
  destruct names as [|n ns]; [reflexivity|].
  rewrite fields_join by (discriminate || exact H2).
  clear -H1. induction H1 as [|m ms Hm _ IH]; [reflexivity|].
  simpl. rewrite Hm. f_equal. exact IH.
Qed.

(** X3. Splitting a comma-separated value never yields an empty name nor a
    name with a comma in it, and it gives back the names a value was joined
    from: [a,b,c] is read as the three names [a], [b], [c]. *)
Theorem X3_parts_of (value : string) (names : list string) :
  Forall (fun part => nonempty part = true /\ has_char ","%char part = false)
         (parts_of value)
  /\ (Forall (fun n => plain_name n = true) names -> parts_of (join "," names) = names).
Proof.
  split; [|apply parts_of_join].
  unfold parts_of.
  pose proof (fields_no_sep ","%char (first_line value)) as H.
  induction H as [|f fs Hf _ IH]; simpl; [constructor|].
  destruct (nonempty f) eqn:E; [constructor; auto|exact IH].
Qed.

Lemma X3_parts_of_witness :
  parts_of (join "," [ "counter_contract_fpi"; "oracle_data_query" ])
  = [ "counter_contract_fpi"; "oracle_data_query" ].
Proof.
  apply (X3_parts_of "" [ "counter_contract_fpi"; "oracle_data_query" ]).
  repeat constructor.
Defined.

(** ** Selector flags *)

Lemma substring_all (s : string) : String.substring 0 (String.length s) s = s.
Proof. induction s as [|c s IH]; simpl; congruence. Qed.

Lemma strip_rust (v : string) : strip_prefix "--rust=" ("--rust=" +:+ v) = v.
Proof.
  unfold strip_prefix.
  change ("--rust=" +:+ v) with
    (String "-" (String "-" (String "r" (String "u" (String "s" (String "t" (String "=" v))))))).
  cbn [String.length]. rewrite Nat.sub_succ, !Nat.sub_succ, Nat.sub_0_r.
  cbn [String.substring]. apply substring_all.
Qed.

Lemma strip_web (v : string) : strip_prefix "--web=" ("--web=" +:+ v) = v.
Proof.
  unfold strip_prefix.
  change ("--web=" +:+ v) with
    (String "-" (String "-" (String "w" (String "e" (String "b" (String "=" v)))))).
  cbn [String.length]. rewrite Nat.sub_succ, !Nat.sub_succ, Nat.sub_0_r.
  cbn [String.substring]. apply substring_all.
Qed.

Lemma prefix_empty (s : string) : String.prefix "" s = true.
Proof. destruct s; reflexivity. Qed.

Lemma parse_rust_equals (v : string) (rest : list string) (s : State) :
  parse_args (("--rust=" +:+ v) :: rest) s
  = parse_args rest (add_rust_names v (select_rust s)).
Proof.
  cbn [parse_args]. rewrite strip_rust.
  change ("--rust=" +:+ v) with
    (String "-" (String "-" (String "r" (String "u" (String "s" (String "t" (String "=" v))))))).
  unfold starts_with. cbn. rewrite prefix_empty. reflexivity.
Qed.

Lemma parse_web_equals (v : string) (rest : list string) (s : State) :
  parse_args (("--web=" +:+ v) :: rest) s
  = parse_args rest (add_web_names v (select_web s)).
Proof.
  cbn [parse_args]. rewrite strip_web.
  change ("--web=" +:+ v) with
    (String "-" (String "-" (String "w" (String "e" (String "b" (String "=" v)))))).
  unfold starts_with. cbn. rewrite prefix_empty. reflexivity.
Qed.

(** X4. [--rust=a,b,...] selects the rust class alone with exactly the
    names of the list, in their order, and [--web=a,b,...] does the same for
    the web class; nothing is printed, run or recorded by the parser. *)
Theorem X4_explicit_names (names : list string) :
  Forall (fun n => plain_name n = true) names ->
  parse_args [ "--rust=" +:+ join "," names ] initial
  = Running {| run_web := false; run_rust := true; saw_selector := true;
               web_names := []; rust_names := names; failures := [];
               output := []; trace := []; ticks := 0 |}
  /\ parse_args [ "--web=" +:+ join "," names ] initial
     = Running {| run_web := true; run_rust := false; saw_selector := true;
                  web_names := names; rust_names := []; failures := [];
                  output := []; trace := []; ticks := 0 |}.
Proof.
  intros Hplain. rewrite parse_rust_equals, parse_web_equals.
  cbn [parse_args]. unfold add_rust_names, add_web_names.
  rewrite (parts_of_join names Hplain). split; reflexivity.
Qed.

Lemma X4_explicit_names_witness :
  parse_args [ "--rust=" +:+ join "," [ "mapping_example"; "delegated_prover" ] ] initial
  = Running {| run_web := false; run_rust := true; saw_selector := true;
               web_names := []; rust_names := [ "mapping_example"; "delegated_prover" ];
               failures := []; output := []; trace := []; ticks := 0 |}.
Proof.
  apply (X4_explicit_names [ "mapping_example"; "delegated_prover" ]).
  repeat constructor.
Defined.

(** X5. The names may also follow the flag as a word of their own:
    [--rust names] is read like [--rust=names], and [--web names] like
    [--web=names], as long as the word does not start with [--]. *)
Theorem X5_separate_word (v : string) (rest : list string) (s : State) :
  starts_with "--" v = false ->
  parse_args ("--rust" :: v :: rest) s = parse_args (("--rust=" +:+ v) :: rest) s
  /\ parse_args ("--web" :: v :: rest) s = parse_args (("--web=" +:+ v) :: rest) s.
Proof.
  intros Hv. rewrite parse_rust_equals, parse_web_equals.
  cbn [parse_args]. rewrite Hv. split; reflexivity.
Qed.

Lemma X5_separate_word_witness :
  parse_args [ "--rust"; "mapping_example" ] initial
  = parse_args [ "--rust=mapping_example" ] initial.
Proof.
  apply (X5_separate_word "mapping_example" [] initial). reflexivity.
Defined.

(** ** The retry loop, for any exit statuses *)











(** ** The loop over the selected tutorials *)









(** ** The rust block *)

Lemma validate_known_only_printed (class : string) (catalog skipped names : list string)
    (s : State) :
  Forall (fun name => contains name catalog = true) names ->
  exists s' : State,
    validate class catalog skipped names s = Running s' /\ only_printed s s'.
Proof.
  intros Hknown.
  destruct (validate_known class catalog skipped names Hknown s) as (s' & Hv).
  pose proof (validate_only_printed class catalog skipped names s) as Hp.
  rewrite Hv in Hp. eauto.
Qed.

(** X9. With known names, a failure while the runs directory is prepared
    ends the process before any tutorial is run: [cargo clean] failing ends
    it with the status of [cargo clean], and an entry [masm] that is not a
    symbolic link ends it with status 1 after the message that a symlink
    was expected, without touching the entry. *)
Theorem X9_preparation_failures (w : World) (s : State) :
  run_rust s = true ->
  Forall (fun name => contains name RUST_EXAMPLES = true)
         (selection RUST_EXAMPLES RUST_SKIPPED (rust_names s)) ->
  (cargo_clean_status w <> 0%Z ->
   exists s' : State,
     rust_block w s = Some (Exited (cargo_clean_status w) s')
     /\ trace s' = trace s ++ [ EvCargoClean (manifest w) ]
     /\ failures s' = failures s)
  /\ (cargo_clean_status w = 0%Z -> masm_entry w = NotASymlink ->
      exists (s' : State) (ls : list Line),
        rust_block w s = Some (Exited 1 s')
        /\ trace s' = trace s ++ [ EvCargoClean (manifest w); EvMkdir (RUNS_DIR w) ]
        /\ output s'
           = output s ++ ls
             ++ [ Err ("Expected " +:+ (RUNS_DIR w +:+ "/masm") +:+ " to be a symlink.") ]
        /\ failures s' = failures s).
Proof.
  intros Hrun Hknown.
  destruct (validate_known_only_printed "rust" RUST_EXAMPLES RUST_SKIPPED _
              (set_rust_names (selection RUST_EXAMPLES RUST_SKIPPED (rust_names s)) s)
              Hknown)
    as (s1 & Hv & _ & _ & _ & _ & _ & Hf & Ht & _ & ls & Hout).
  cbn [failures trace output set_rust_names] in Hf, Ht, Hout.
  unfold rust_block. rewrite Hrun. cbn [rust_names set_rust_names].
  rewrite Hv. cbn [and_then]. unfold prepare_runs. split.
  - intros Hne. apply Z.eqb_neq in Hne. rewrite Hne. cbn [negb].
    eexists. split; [reflexivity|]. simpl. rewrite Ht, Hf. auto.
  - intros Hz Hmasm. rewrite Hz, Hmasm. cbn [Z.eqb negb].
    eexists. exists (ls ++ [Out "Cleaning rust build artifacts before running tutorials..."]).
    split; [reflexivity|]. simpl. rewrite Ht, Hf, Hout, <- !List.app_assoc. auto.
Qed.

Lemma X9_preparation_failures_witness :
  exists s' : State,
    rust_block
      {| ROOT_DIR := "/repo"; pid := 7; TUTORIAL_RETRIES := EnvUnset;
         expression := fun _ => Invalid;
         date := fun _ => "20260101-120000"; playwright_status := fun _ => 0%Z;
         cargo_clean_status := 101; cargo_run_status := fun _ _ => 0%Z;
         masm_entry := Absent |}
      (select_rust initial)
    = Some (Exited 101 s')
    /\ trace s' = [ EvCargoClean "/repo/rust-client/Cargo.toml" ].
Proof.
  destruct (X9_preparation_failures
              {| ROOT_DIR := "/repo"; pid := 7; TUTORIAL_RETRIES := EnvUnset;
                 expression := fun _ => Invalid;
                 date := fun _ => "20260101-120000"; playwright_status := fun _ => 0%Z;
                 cargo_clean_status := 101; cargo_run_status := fun _ _ => 0%Z;
                 masm_entry := Absent |}
              (select_rust initial)) as (Hclean & _).
  - reflexivity.
  - repeat constructor.
  - destruct Hclean as (s' & Hb & Ht & _); [discriminate|].
    exists s'. split; [exact Hb|exact Ht].
Defined.

Lemma prepare_runs_ok (w : World) (s : State) :
  cargo_clean_status w = 0%Z ->
  masm_entry w = Absent \/ masm_entry w = Symlink ->
  exists s2 : State,
    prepare_runs w s = Running s2
    /\ trace s2 = trace s ++ prepared w /\ failures s2 = failures s
    /\ ticks s2 = ticks s /\ rust_names s2 = rust_names s.
Proof.
  intros Hclean Hmasm. unfold prepare_runs, prepared.
  rewrite Hclean. cbn [Z.eqb negb].
  destruct Hmasm as [-> | ->]; eexists; (split; [reflexivity|]); simpl;
    rewrite <- ?List.app_assoc; auto.
Qed.





(** ** The exit status of the whole script *)

Lemma web_block_cases (w : World) (s : State) :
  (exists s', web_block w s = Exited 1 s' /\ trace s' = trace s /\ failures s' = failures s)
  \/ (exists s1,
        web_block w s = Running s1
        /\ run_rust s1 = run_rust s /\ rust_names s1 = rust_names s /\ ticks s1 = ticks s
        /\ ((run_web s = false /\ s1 = s)
            \/ (run_web s = true
                /\ trace s1 = trace s ++ [ EvPlaywright (WEB_DIR w)
                     (join "|" (selection WEB_EXAMPLES WEB_SKIPPED (web_names s))) ]
                /\ failures s1 = failures s
                     ++ (if (playwright_status w
                               (join "|" (selection WEB_EXAMPLES WEB_SKIPPED (web_names s)))
                             =? 0)%Z
                         then [] else [ "web" ])))).
Proof.
  destruct (run_web s) eqn:Hrw.
  2:{ right. exists s. rewrite web_block_skipped by exact Hrw. auto 10. }
  destruct (known_or_unknown WEB_EXAMPLES (selection WEB_EXAMPLES WEB_SKIPPED (web_names s)))
    as [Hknown|Hun].
  - right. destruct (web_block_known w s Hrw Hknown) as (s1 & Hb & Ht & Hf & Hrr & Hrn & Hk).
    exists s1. auto 10.
  - left. assert (Hreq : exists name, unknown_in WEB_EXAMPLES (web_names s) name).
    { destruct Hun as (name & Hin & Hun). exists name. split; [|exact Hun].
      destruct (web_names s) as [|n ns]; [|exact Hin].
      change (selection WEB_EXAMPLES WEB_SKIPPED [])
        with (defaults WEB_EXAMPLES WEB_SKIPPED) in Hin.
      exfalso. pose proof web_defaults_known as Hd. rewrite Forall_forall in Hd.
      apply list_elem_of_In in Hin. apply Hd in Hin. congruence. }
    destruct (web_block_unknown w s Hrw Hreq) as (name & s' & ls & _ & Hb & Ht & Hf & _).
    exists s'. auto.
Qed.

Lemma rust_block_exit_nonzero (w : World) (s s' : State) (c : Z) :
  rust_block w s = Some (Exited c s') -> c <> 0%Z.
Proof.
  unfold rust_block. destruct (run_rust s); [|discriminate].
  set (s0 := set_rust_names _ s).
  destruct (validate "rust" RUST_EXAMPLES RUST_SKIPPED (rust_names s0) s0)
    as [c1 s1|s1] eqn:Hv; cbn [and_then].
  { apply validate_status in Hv. intros H. injection H as <- _. lia. }
  unfold prepare_runs.
  destruct (negb (cargo_clean_status w =? 0)%Z) eqn:Hc.
  { intros H. injection H as <- _. apply negb_true_iff, Z.eqb_neq in Hc. exact Hc. }
  destruct (masm_entry w);
    try (intros H; apply run_rust_tutorials_status in H as (-> & _); lia);
    intros H; injection H as <- _; lia.
Qed.

(** X11. A zero exit status can be trusted: whenever the script exits with
    status 0, no failure was recorded and every browser suite it started
    had exited with status 0.  A failing browser suite therefore always
    gives a non-zero exit status, whatever the rust tutorials do after it. *)
Theorem X11_exit_zero_sound (w : World) (args : list string) (o : Outcome) :
  main w args = Some o ->
  exit_status o = 0%Z ->
  recorded o = []
  /\ forall cwd pattern,
       In (EvPlaywright cwd pattern) (performed o) -> playwright_status w pattern = 0%Z.
Proof.
  unfold main, run_blocks.
  pose proof (parse_args_frame args initial) as (Ht0 & Hf0 & _).
  destruct (parse_args args initial) as [c s0|s0]; cbn [state_of] in Ht0, Hf0.
  { intros H _. injection H as <-. cbn [finish recorded performed].
    rewrite Ht0, Hf0. split; [reflexivity|intros ? ? []]. }
  set (s := if negb (saw_selector s0) then run_both s0 else s0).
  assert (Hs : trace s = [] /\ failures s = []).
  { subst s. destruct (negb (saw_selector s0)); simpl; auto. }
  destruct Hs as (Hts & Hfs).
  destruct (web_block_cases w s) as [(s' & -> & _)|(s1 & -> & _ & _ & _ & Hweb)].
  { intros H Hc. injection H as <-. discriminate Hc. }
  destruct (rust_block w s1) as [[c s2|s2]|] eqn:Hrust; [| |discriminate].
  { intros H Hc. injection H as <-. apply rust_block_exit_nonzero in Hrust.
    cbn [finish exit_status] in Hc. contradiction. }
  destruct (rust_block_frame w s1 _ Hrust) as (es & fs & Ht2 & Hes & Hf2 & _).
  cbn [state_of] in Ht2, Hf2.
  unfold aggregate. destruct (0 <? List.length (failures s2))%nat eqn:Hlen.
  { intros H Hc. injection H as <-. discriminate Hc. }
  intros H _. injection H as <-. cbn [finish recorded performed].
  apply Nat.ltb_ge in Hlen.
  assert (Hnil : failures s2 = []) by (destruct (failures s2); [reflexivity|simpl in Hlen; lia]).
  split; [exact Hnil|].
  intros cwd pattern Hin. rewrite Ht2 in Hin. apply List.in_app_or in Hin as [Hin|Hin].
  2:{ rewrite Forall_forall in Hes. apply list_elem_of_In in Hin.
      apply Hes in Hin. discriminate Hin. }
  rewrite Hnil in Hf2. symmetry in Hf2. apply List.app_eq_nil in Hf2 as [Hf1 _].
  destruct Hweb as [(_ & ->)|(_ & Ht1 & Hfw)].
  { rewrite Hts in Hin. destruct Hin. }
  rewrite Ht1, Hts in Hin. destruct Hin as [Heq|[]]. injection Heq as _ <-.
  rewrite Hf1, Hfs in Hfw.
  destruct (playwright_status w _ =? 0)%Z eqn:Hz; [apply Z.eqb_eq; exact Hz|discriminate Hfw].
Qed.

Lemma X11_exit_zero_sound_witness :
  recorded
    {| exit_status := 0;
       printed := [ Out "Running web tutorials: createMintConsume" ];
       performed := [ EvPlaywright "/repo/web-client" "createMintConsume" ];
       recorded := [] |} = []
  /\ playwright_status (Scenario.world EnvUnset 0) "createMintConsume" = 0%Z.
Proof.
  destruct (X11_exit_zero_sound (Scenario.world EnvUnset 0) [ "--web=createMintConsume" ]
              {| exit_status := 0;
                 printed := [ Out "Running web tutorials: createMintConsume" ];
                 performed := [ EvPlaywright "/repo/web-client" "createMintConsume" ];
                 recorded := [] |}) as (Hrec & Hpw).
  - vm_compute. reflexivity.
  - reflexivity.
  - split; [exact Hrec|]. apply (Hpw "/repo/web-client"). left. reflexivity.
Defined.

Lemma run_rust_tutorials_green (w : World) (names : list string) :
  (forall n name, cargo_run_status w n name = 0%Z) ->
  forall s : State,
    exists s' : State,
      run_rust_tutorials w names s = Some (Running s')
      /\ trace s' = trace s
           ++ runs_trace w names (List.repeat 1%nat (List.length names)) (ticks s)
      /\ failures s' = failures s.
Proof.
  intros Hok. induction names as [|name names IH]; intros s; cbn [run_rust_tutorials].
  { exists s. rewrite List.app_nil_r. auto. }
  pose proof (enough_pos w) as Hpos.
  destruct (enough w) as [|fuel]; [lia|].
  rewrite (retry_loop_success w name fuel 1 s (Hok _ _)).
  destruct (attempt_once w name 1 s) as [status s1] eqn:E.
  apply attempt_once_fields in E as (_ & Ht & Hf & Hk). cbn [snd].
  destruct (IH s1) as (s' & Hrest & Ht' & Hf').
  exists s'. split; [exact Hrest|]. cbn [List.length List.repeat runs_trace].
  rewrite Ht', Ht, Hf', Hf, Hk, attempts_trace_one, Nat.add_1_r, <- List.app_assoc. auto.
Qed.

(** X12. When the requested names are known, the preparation succeeds and
    every external command exits with status 0, the script exits with
    status 0 and records nothing; it starts the browser suite once if the
    web class runs, and then, if the rust class runs, cleans, prepares and
    runs every selected tutorial exactly once, in order, without any sleep. *)
Theorem X12_all_green (w : World) (args : list string) (s0 : State) :
  parse_args args initial = Running s0 ->
  Forall (fun name => contains name WEB_EXAMPLES = true) (web_names s0) ->
  Forall (fun name => contains name RUST_EXAMPLES = true) (rust_names s0) ->
  (forall pattern, playwright_status w pattern = 0%Z) ->
  cargo_clean_status w = 0%Z ->
  masm_entry w = Absent \/ masm_entry w = Symlink ->
  (forall n name, cargo_run_status w n name = 0%Z) ->
  exists o : Outcome,
    main w args = Some o
    /\ exit_status o = 0%Z
    /\ recorded o = []
    /\ performed o
       = (if run_web (effective s0)
          then [ EvPlaywright (WEB_DIR w)
                   (join "|" (selection WEB_EXAMPLES WEB_SKIPPED (web_names s0))) ]
          else [])
         ++ (if run_rust (effective s0)
             then prepared w
                  ++ runs_trace w (selection RUST_EXAMPLES RUST_SKIPPED (rust_names s0))
                       (List.repeat 1%nat
                          (List.length (selection RUST_EXAMPLES RUST_SKIPPED (rust_names s0))))
                       0
             else [])
    /\ List.filter is_sleep (performed o) = [].
Proof.
  intros Hparse Hweb Hrust Hpw Hclean Hmasm Hok.
  destruct (parsed_initial args s0 Hparse) as (Ht0 & Hf0 & _ & _).
  assert (Hs : trace (effective s0) = [] /\ failures (effective s0) = []
               /\ web_names (effective s0) = web_names s0
               /\ rust_names (effective s0) = rust_names s0
               /\ ticks (effective s0) = 0%nat).
  { pose proof (parse_args_frame args initial) as (_ & _ & Hk). rewrite Hparse in Hk.
    cbn [state_of] in Hk.
    unfold effective. destruct (negb (saw_selector s0)); simpl; auto. }
  destruct Hs as (Hts & Hfs & Hwn & Hrn & Hk).
  assert (Hsleep : forall names n t,
            List.filter is_sleep (runs_trace w names (List.repeat 1%nat n) t) = []).
  { induction names as [|name names IH]; intros [|n] t; try reflexivity.
    cbn [List.repeat runs_trace]. rewrite List.filter_app, IH. reflexivity. }
  assert (Hprep : List.filter is_sleep (prepared w) = []).
  { unfold prepared. destruct (masm_entry w); reflexivity. }
  unfold main, run_blocks. rewrite Hparse. fold (effective s0).
  destruct (web_block_cases w (effective s0))
    as [(s' & Hb & _)|(s1 & Hb & Hrr & Hrn1 & Hk1 & Hcase)].
  { exfalso. destruct (run_web (effective s0)) eqn:Hrw.
    - destruct (web_block_known w (effective s0) Hrw) as (s1 & Hb' & _).
      { rewrite Hwn. apply selection_known; [apply web_defaults_known|exact Hweb]. }
      congruence.
    - rewrite web_block_skipped in Hb by exact Hrw. discriminate Hb. }
  rewrite Hb.
  assert (Hs1 : trace s1
                = (if run_web (effective s0)
                   then [ EvPlaywright (WEB_DIR w)
                            (join "|" (selection WEB_EXAMPLES WEB_SKIPPED (web_names s0))) ]
                   else [])
                /\ failures s1 = []).
  { destruct Hcase as [(-> & ->)|(-> & Ht1 & Hf1)]; [auto|].
    rewrite Hpw in Hf1. rewrite Ht1, Hf1, Hts, Hfs, Hwn. auto. }
  destruct Hs1 as (Ht1 & Hf1).
  rewrite <- Hrr.
  destruct (run_rust s1) eqn:Hrr1.
  - assert (Hknown : Forall (fun name => contains name RUST_EXAMPLES = true)
                            (selection RUST_EXAMPLES RUST_SKIPPED (rust_names s1))).
    { rewrite Hrn1, Hrn. apply selection_known; [apply rust_defaults_known|exact Hrust]. }
    set (sel := selection RUST_EXAMPLES RUST_SKIPPED (rust_names s1)) in *.
    destruct (validate_known_only_printed "rust" RUST_EXAMPLES RUST_SKIPPED sel
                (set_rust_names sel s1) Hknown)
      as (s2 & Hv & _ & _ & _ & _ & Hn2 & Hf2 & Ht2 & Hk2 & _).
    cbn [failures trace ticks rust_names set_rust_names] in Hn2, Hf2, Ht2, Hk2.
    destruct (prepare_runs_ok w s2 Hclean Hmasm) as (s3 & Hprep3 & Ht3 & Hf3 & Hk3 & Hn3).
    destruct (run_rust_tutorials_green w (rust_names s3) Hok s3) as (s4 & Hrun & Ht4 & Hf4).
    unfold rust_block. rewrite Hrr1. fold sel. cbn [rust_names set_rust_names].
    rewrite Hv. cbn [and_then]. rewrite Hprep3, Hrun.
    unfold aggregate. rewrite Hf4, Hf3, Hf2, Hf1. cbn [List.length Nat.ltb Nat.leb].
    eexists. split; [reflexivity|]. cbn [finish exit_status recorded performed].
    rewrite Hf4, Hf3, Hf2, Hf1, Ht4, Ht3, Ht2, Ht1, Hn3, Hn2, Hk3, Hk2, Hk1, Hk.
    subst sel. rewrite Hrn1, Hrn, <- List.app_assoc.
    split; [reflexivity|]. split; [reflexivity|]. split; [reflexivity|].
    rewrite !List.filter_app, Hsleep, Hprep.
    destruct (run_web (effective s0)); reflexivity.
  - rewrite rust_block_skipped by exact Hrr1.
    unfold aggregate. rewrite Hf1. cbn [List.length Nat.ltb Nat.leb].
    eexists. split; [reflexivity|]. cbn [finish exit_status recorded performed].
    rewrite Hf1, Ht1, List.app_nil_r.
    split; [reflexivity|]. split; [reflexivity|]. split; [reflexivity|].
    destruct (run_web (effective s0)); reflexivity.
Qed.

Lemma X12_all_green_witness :
  exists o : Outcome,
    main (Scenario.world EnvUnset 0) [] = Some o
    /\ exit_status o = 0%Z
    /\ bins_of (performed o) = selection RUST_EXAMPLES RUST_SKIPPED [].
Proof.
  destruct (X12_all_green (Scenario.world EnvUnset 0) [] initial)
    as (o & Hm & Hc & _ & Hp & _).
  - reflexivity.
  - constructor.
  - constructor.
  - reflexivity.
  - reflexivity.
  - left. reflexivity.
  - reflexivity.
  - exists o. split; [exact Hm|]. split; [exact Hc|]. rewrite Hp. reflexivity.
Defined.

(** X13. Known names pass the validation of their class: the block goes
    on, having printed one notice for every requested name that is skipped
    by default, in the order of the request, and nothing else. *)
Theorem X13_skipped_notice (class : string) (catalog skipped names : list string) :
  Forall (fun name => contains name catalog = true) names ->
  forall s : State,
    exists s' : State,
      validate class catalog skipped names s = Running s'
      /\ output s'
         = output s ++ List.map note (List.filter (fun n => contains n skipped) names)
      /\ trace s' = trace s /\ failures s' = failures s.
Proof.
  induction 1 as [|name names Hname _ IH]; intros s; cbn [validate].
  { exists s. rewrite List.app_nil_r. auto. }
  rewrite Hname. cbn [negb List.filter].
  destruct (contains name skipped).
  - destruct (IH (print [note name] s)) as (s' & Hv & Ho & Ht & Hf).
    exists s'. split; [exact Hv|]. simpl in Ho, Ht, Hf.
    rewrite Ho, <- List.app_assoc. auto.
  - apply IH.
Qed.

Lemma X13_skipped_notice_witness :
  exists s' : State,
    validate "rust" RUST_EXAMPLES RUST_SKIPPED [ "mapping_example"; "oracle_data_query" ] initial
    = Running s'
    /\ output s' = [ note "oracle_data_query" ].
Proof.
  destruct (X13_skipped_notice "rust" RUST_EXAMPLES RUST_SKIPPED
              [ "mapping_example"; "oracle_data_query" ]) with (s := initial)
    as (s' & Hv & Ho & _).
  - repeat constructor.
  - exists s'. split; [exact Hv|exact Ho].
Defined.

(** ** Help and unrecognized arguments *)

Lemma parse_args_after_class_flags (pre : list string) (a : string) (post : list string) :
  Forall (fun f => is_class_flag f = true) pre ->
  starts_with "--" a = true ->
  forall s : State,
    exists s' : State,
      parse_args (pre ++ a :: post) s = parse_args (a :: post) s'
      /\ output s' = output s /\ trace s' = trace s /\ failures s' = failures s.
Proof.
  intros Hpre Ha. induction Hpre as [|f pre Hf Hpre IH]; intros s.
  { exists s. auto. }
  assert (Hnext : exists b rest, pre ++ a :: post = b :: rest
                                 /\ starts_with "--" b = true).
  { destruct Hpre as [|b pre' Hb _]; [exists a, post; auto|].
    exists b, (pre' ++ a :: post). split; [reflexivity|].
    apply class_flag_dashes. exact Hb. }
  destruct Hnext as (b & rest & Hrest & Hb).
  change ((f :: pre) ++ a :: post) with (f :: (pre ++ a :: post)).
  cbn [parse_args]. unfold is_class_flag in Hf.
  destruct (String.eqb f "--web") eqn:E1.
  { rewrite Hrest, Hb. cbn [negb]. rewrite <- Hrest.
    destruct (IH (select_web s)) as (s' & -> & ? & ? & ?). eauto. }
  destruct (starts_with "--web=" f) eqn:E2.
  { destruct (IH (add_web_names (strip_prefix "--web=" f) (select_web s)))
      as (s' & -> & ? & ? & ?). eauto. }
  destruct (String.eqb f "--rust") eqn:E3.
  { rewrite Hrest, Hb. cbn [negb]. rewrite <- Hrest.
    destruct (IH (select_rust s)) as (s' & -> & ? & ? & ?). eauto. }
  destruct (starts_with "--rust=" f) eqn:E4.
  { destruct (IH (add_rust_names (strip_prefix "--rust=" f) (select_rust s)))
      as (s' & -> & ? & ? & ?). eauto. }
  discriminate Hf.
Qed.

(** X21. After class flags only, [--help] prints the usage and exits with
    status 0, and an argument that starts with [--] and is not one of the
    known flags prints [Unknown argument], then the usage, and exits with
    status 1; in both cases nothing is run, whatever names were requested. *)
Theorem X21_help_and_unknown (w : World) (pre post : list string) (a : string) :
  Forall (fun f => is_class_flag f = true) pre ->
  main w (pre ++ "--help" :: post)
  = Some {| exit_status := 0; printed := usage; performed := []; recorded := [] |}
  /\ (starts_with "--" a = true ->
      is_class_flag a = false ->
      a <> "--list" -> a <> "--help" ->
      main w (pre ++ a :: post)
      = Some {| exit_status := 1;
                printed := Err ("Unknown argument: " +:+ a) :: usage;
                performed := []; recorded := [] |}).
Proof.
  intros Hpre. split.
  - destruct (parse_args_after_class_flags pre "--help" post Hpre eq_refl initial)
      as (s' & Hparse & Ho & Ht & Hf).
    unfold main, run_blocks. rewrite Hparse.
    change (parse_args ("--help" :: post) s') with (Exited 0 (print usage s')).
    unfold finish, print. cbn [output trace failures]. rewrite Ho, Ht, Hf. reflexivity.
  - intros Ha Hflag Hlist Hhelp.
    destruct (parse_args_after_class_flags pre a post Hpre Ha initial)
      as (s' & Hparse & Ho & Ht & Hf).
    unfold main, run_blocks. rewrite Hparse. cbn [parse_args].
    unfold is_class_flag in Hflag.
    apply orb_false_iff in Hflag as [Hflag E4].
    apply orb_false_iff in Hflag as [Hflag E3].
    apply orb_false_iff in Hflag as [E1 E2].
    rewrite E1, E2, E3, E4.
    apply String.eqb_neq in Hlist, Hhelp. rewrite Hlist, Hhelp.
    assert (Hh : String.eqb a "-h" = false).
    { apply String.eqb_neq. intros ->. discriminate Ha. }
    rewrite Hh. cbn [orb]. unfold finish, print. cbn [output trace failures].
    rewrite Ho, Ht, Hf. reflexivity.
Qed.

Lemma X21_help_and_unknown_witness :
  main (Scenario.world EnvUnset 1) [ "--rust=mapping_example"; "--verbose" ]
  = Some {| exit_status := 1;
            printed := Err "Unknown argument: --verbose" :: usage;
            performed := []; recorded := [] |}.
Proof.
  destruct (X21_help_and_unknown (Scenario.world EnvUnset 1)
              [ "--rust=mapping_example" ] [] "--verbose") as (_ & Hunknown).
  - repeat constructor.
  - apply Hunknown; [reflexivity|reflexivity|discriminate|discriminate].
Defined.

End RunnerExtras.

(** * Further properties of the browser side *)

Module PageExtras.
Import Page HomePage WordFacts PageClaims.

(** ** The count of the foreign procedure invocation tutorial *)

Lemma str_app_nil_r (s : string) : s +:+ "" = s.
Proof. induction s as [|c s IH]; [reflexivity|]. rewrite str_app_cons, IH. reflexivity. Qed.

Lemma str_length_app (a b : string) :
  String.length (a +:+ b) = (String.length a + String.length b)%nat.
Proof.
  induction a as [|c a IH]; [reflexivity|]. rewrite str_app_cons. simpl. rewrite IH.
  reflexivity.
Qed.

Lemma substring_short (s : string) (n : nat) :
  (String.length s <= n)%nat -> String.substring 0 n s = s.
Proof.
  revert n. induction s as [|c s IH]; intros [|n] H; simpl in *; try reflexivity; [lia|].
  rewrite IH by lia. reflexivity.
Qed.

Lemma substring_skip (p h : string) (n : nat) :
  String.substring (String.length p) n (p +:+ h) = String.substring 0 n h.
Proof.
  induction p as [|c p IH]; [reflexivity|]. rewrite str_app_cons. simpl. exact IH.
Qed.

Lemma slice_last_app (p h : string) :
  Fpi.slice_last (String.length h) (p +:+ h) = h.
Proof.
  unfold Fpi.slice_last. rewrite str_length_app.
  replace (String.length p + String.length h - String.length h)%nat
    with (String.length p) by lia.
  rewrite substring_skip. apply substring_short. lia.
Qed.

Lemma slice_last_short (s : string) (n : nat) :
  (String.length s <= n)%nat -> Fpi.slice_last n s = s.
Proof.
  intros H. unfold Fpi.slice_last.
  replace (String.length s - n)%nat with 0%nat by lia.
  apply substring_short. exact H.
Qed.

Lemma concat_empty_cons (x : string) (xs : list string) :
  String.concat "" (x :: xs) = x +:+ String.concat "" xs.
Proof. destruct xs; [symmetry; apply str_app_nil_r|reflexivity]. Qed.

Lemma concat_empty_app (xs ys : list string) :
  String.concat "" (xs ++ ys) = String.concat "" xs +:+ String.concat "" ys.
Proof.
  induction xs as [|x xs IH]; [reflexivity|].
  change ((x :: xs) ++ ys) with (x :: (xs ++ ys)).
  rewrite !concat_empty_cons, IH, str_app_assoc. reflexivity.
Qed.

Lemma hex_bytes_cons (b : nat) (bs : list nat) :
  Fpi.hex_bytes (b :: bs) = Fpi.hex_byte b +:+ Fpi.hex_bytes bs.
Proof. unfold Fpi.hex_bytes. cbn [List.map]. apply concat_empty_cons. Qed.

Lemma hex_bytes_length (bs : list nat) :
  String.length (Fpi.hex_bytes bs) = (2 * List.length bs)%nat.
Proof.
  induction bs as [|b bs IH]; [reflexivity|].
  rewrite hex_bytes_cons, str_length_app, IH. simpl. lia.
Qed.

Lemma hex_digit_plain (d : nat) :
  Fpi.is_line_terminator (Fpi.hex_digit d) = false
  /\ Fpi.is_white_space (Fpi.hex_digit d) = false.
Proof. do 15 (destruct d as [|d]; [split; reflexivity|]). split; reflexivity. Qed.

Lemma hex_value_digit (d : nat) :
  (d < 16)%nat -> Fpi.hex_value (Fpi.hex_digit d) = Some (Z.of_nat d).
Proof. intros H. do 16 (destruct d as [|d]; [reflexivity|]). lia. Qed.

Lemma pairs_hex_byte (b : nat) (rest : string) :
  Fpi.pairs (Fpi.hex_byte b +:+ rest) = Fpi.hex_byte b :: Fpi.pairs rest.
Proof.
  unfold Fpi.hex_byte. rewrite !str_app_cons, str_app_nil_l. cbn [Fpi.pairs].
  destruct (hex_digit_plain (b / 16)) as [-> _].
  destruct (hex_digit_plain (b mod 16)) as [-> _]. reflexivity.
Qed.

Lemma pairs_hex_bytes (bs : list nat) :
  Fpi.pairs (Fpi.hex_bytes bs) = List.map Fpi.hex_byte bs.
Proof.
  induction bs as [|b bs IH]; [reflexivity|].
  rewrite hex_bytes_cons, pairs_hex_byte, IH. reflexivity.
Qed.

Lemma trim_end_hex_byte (b : nat) (rest : string) :
  Fpi.trim_end (Fpi.hex_byte b +:+ rest) = Fpi.hex_byte b +:+ Fpi.trim_end rest.
Proof.
  unfold Fpi.hex_byte. rewrite !str_app_cons, !str_app_nil_l.
  cbn [Fpi.trim_end Fpi.all_white_space].
  destruct (hex_digit_plain (b / 16)) as [_ ->].
  destruct (hex_digit_plain (b mod 16)) as [_ ->]. reflexivity.
Qed.

Lemma trim_end_hex_bytes (bs : list nat) (tail : string) :
  Fpi.trim_end (Fpi.hex_bytes bs +:+ tail) = Fpi.hex_bytes bs +:+ Fpi.trim_end tail.
Proof.
  induction bs as [|b bs IH]; [reflexivity|].
  rewrite hex_bytes_cons, str_app_assoc, trim_end_hex_byte, IH. reflexivity.
Qed.

Lemma hex_digits_hex_byte (b : nat) (acc : Z) (rest : string) :
  (b < 256)%nat ->
  Fpi.hex_digits acc (Fpi.hex_byte b +:+ rest)
  = Fpi.hex_digits (256 * acc + Z.of_nat b) rest.
Proof.
  intros Hb. unfold Fpi.hex_byte. rewrite !str_app_cons, str_app_nil_l.
  cbn [Fpi.hex_digits].
  assert (Hq : (b / 16 < 16)%nat) by (apply Nat.Div0.div_lt_upper_bound; lia).
  assert (Hr : (b mod 16 < 16)%nat) by (apply Nat.mod_upper_bound; lia).
  rewrite (hex_value_digit _ Hq), (hex_value_digit _ Hr). f_equal.
  pose proof (Nat.div_mod_eq b 16). lia.
Qed.

Lemma hex_digits_hex_bytes (bs : list nat) :
  Forall (fun b => (b < 256)%nat) bs ->
  forall (acc : Z) (tail : string),
    Fpi.hex_digits acc (Fpi.hex_bytes bs +:+ tail)
    = Fpi.hex_digits (List.fold_left (fun a b => (256 * a + Z.of_nat b)%Z) bs acc) tail.
Proof.
  induction 1 as [|b bs Hb _ IH]; intros acc tail; [reflexivity|].
  rewrite hex_bytes_cons, str_app_assoc, hex_digits_hex_byte by exact Hb.
  rewrite IH. reflexivity.
Qed.

Lemma fold_left_rev_le (bs : list nat) :
  List.fold_left (fun a b => (256 * a + Z.of_nat b)%Z) (List.rev bs) 0%Z = Fpi.le_value bs.
Proof.
  rewrite <- List.fold_left_rev_right, List.rev_involutive.
  induction bs as [|b bs IH]; [reflexivity|]. simpl. rewrite IH. lia.
Qed.

Lemma le_value_nonneg (bs : list nat) : (0 <= Fpi.le_value bs)%Z.
Proof. induction bs as [|b bs IH]; simpl; lia. Qed.

Lemma Number_exact (z : Z) :
  (0 <= z < 2 ^ 53)%Z -> Fpi.Number_of_BigInt z = z.
Proof.
  intros [H0 H1]. unfold Fpi.Number_of_BigInt.
  assert (Hb : (Z.log2 z + 1 <=? 53)%Z = true).
  { apply Z.leb_le. destruct (Z.eq_dec z 0%Z) as [->|Hz]; [simpl; lia|].
    assert (Z.log2 z < 53)%Z by (apply Z.log2_lt_pow2; lia). lia. }
  rewrite Hb. reflexivity.
Qed.

Lemma countValue_bytes (p : string) (bs : list nat) :
  List.length bs = 8%nat ->
  Forall (fun b => (b < 256)%nat) bs ->
  Fpi.countValue (p +:+ Fpi.hex_bytes bs) = Some (Fpi.Number_of_BigInt (Fpi.le_value bs)).
Proof.
  intros Hlen Hbs. unfold Fpi.countValue.
  replace 16%nat with (String.length (Fpi.hex_bytes bs))
    by (rewrite hex_bytes_length, Hlen; reflexivity).
  rewrite slice_last_app, pairs_hex_bytes.
  destruct bs as [|b bs]; [discriminate Hlen|].
  remember (b :: bs) as l eqn:Hl.
  assert (Hne : List.map Fpi.hex_byte l <> []) by (subst l; discriminate).
  destruct (List.map Fpi.hex_byte l) as [|x xs] eqn:Hmap; [contradiction|].
  rewrite <- Hmap, <- List.map_rev.
  fold (Fpi.hex_bytes (List.rev l)). unfold Fpi.BigInt_0x.
  rewrite <- (str_app_nil_r (Fpi.hex_bytes (List.rev l))).
  rewrite trim_end_hex_bytes. cbn [Fpi.trim_end].
  assert (Hrev : Forall (fun b => (b < 256)%nat) (List.rev l)).
  { apply Forall_rev. exact Hbs. }
  pose proof (hex_digits_hex_bytes (List.rev l) Hrev 0%Z "") as Hd.
  cbn [Fpi.hex_digits] in Hd. rewrite fold_left_rev_le in Hd.
  destruct (Fpi.hex_bytes (List.rev l) +:+ "") as [|c t] eqn:Hs.
  - exfalso. apply (f_equal String.length) in Hs.
    rewrite str_app_nil_r, hex_bytes_length, List.length_rev in Hs.
    subst l. simpl in Hs. lia.
  - rewrite Hd. reflexivity.
Qed.

(** X14. The logged count is the number whose little-endian bytes are the
    last eight bytes of the word: for a [toHex()] ending in the sixteen
    hexadecimal digits of eight bytes, whatever comes before them, the
    expression yields the double nearest to that number, and the number
    itself when it is below 2^53. *)
Theorem X14_count_is_little_endian (p : string) (bs : list nat) :
  List.length bs = 8%nat ->
  Forall (fun b => (b < 256)%nat) bs ->
  Fpi.countValue (p +:+ Fpi.hex_bytes bs) = Some (Fpi.Number_of_BigInt (Fpi.le_value bs))
  /\ ((Fpi.le_value bs < 2 ^ 53)%Z ->
      Fpi.countValue (p +:+ Fpi.hex_bytes bs) = Some (Fpi.le_value bs)).
Proof.
  intros Hlen Hbs. split; [apply countValue_bytes; assumption|].
  intros Hlt. rewrite countValue_bytes by assumption.
  rewrite Number_exact; [reflexivity|]. split; [apply le_value_nonneg|exact Hlt].
Qed.

Lemma X14_count_is_little_endian_witness :
  Fpi.countValue
    "0x0000000000000000000000000000000000000000000000002a01000000000000"
  = Some 298%Z.
Proof.
  destruct (X14_count_is_little_endian
              "0x000000000000000000000000000000000000000000000000"
              [ 42; 1; 0; 0; 0; 0; 0; 0 ]%nat) as (_ & Hexact).
  - reflexivity.
  - repeat constructor; lia.
  - apply Hexact. reflexivity.
Defined.

Lemma pairs_0x_hex_bytes (bs : list nat) :
  Fpi.pairs ("0x" +:+ Fpi.hex_bytes bs) = "0x" :: List.map Fpi.hex_byte bs.
Proof.
  change ("0x" +:+ Fpi.hex_bytes bs) with (String "0" (String "x" (Fpi.hex_bytes bs))).
  cbn [Fpi.pairs]. rewrite pairs_hex_bytes. reflexivity.
Qed.

(** X15. The expression throws instead of yielding a count when the
    [toHex()] has fewer than two characters (nothing matches the pairs), and
    when it is [0x] followed by fewer than eight bytes, because the prefix is
    then taken for digits. *)
Theorem X15_count_throws (hex : string) (bs : list nat) :
  ((String.length hex < 2)%nat -> Fpi.countValue hex = None)
  /\ ((List.length bs < 8)%nat -> Forall (fun b => (b < 256)%nat) bs ->
      Fpi.countValue ("0x" +:+ Fpi.hex_bytes bs) = None).
Proof.
  split.
  - intros Hlen. unfold Fpi.countValue. rewrite slice_last_short by lia.
    destruct hex as [|a [|b rest]]; [reflexivity|reflexivity|simpl in Hlen; lia].
  - intros Hlen Hbs. unfold Fpi.countValue.
    rewrite slice_last_short
      by (rewrite str_length_app, hex_bytes_length; simpl; lia).
    rewrite pairs_0x_hex_bytes.
    change (List.rev ("0x" :: List.map Fpi.hex_byte bs))
      with (List.rev (List.map Fpi.hex_byte bs) ++ [ "0x" ]).
    rewrite <- List.map_rev, concat_empty_app.
    fold (Fpi.hex_bytes (List.rev bs)).
    change (String.concat "" [ "0x" ]) with "0x".
    unfold Fpi.BigInt_0x. rewrite trim_end_hex_bytes.
    change (Fpi.trim_end "0x") with "0x".
    assert (Hd : Fpi.hex_digits 0 (Fpi.hex_bytes (List.rev bs) +:+ "0x") = None).
    { rewrite hex_digits_hex_bytes by (apply Forall_rev; exact Hbs). reflexivity. }
    destruct (Fpi.hex_bytes (List.rev bs) +:+ "0x"); [reflexivity|].
    rewrite Hd. reflexivity.
Qed.

Lemma X15_count_throws_witness :
  Fpi.countValue "" = None /\ Fpi.countValue "0x2a01" = None.
Proof.
  destruct (X15_count_throws "" [ 42; 1 ]%nat) as (Hshort & Hprefix).
  split.
  - apply Hshort. simpl. lia.
  - apply Hprefix; [simpl; lia|repeat constructor; lia].
Defined.

(** ** The status map *)

(** X16. Writes to the status map compose as expected: a second write for
    the same tutorial replaces the first one, and writes for two different
    tutorials can be made in either order. *)
Theorem X16_updates_compose (has_window : bool) (name other : string)
    (st1 st2 : TutorialState) (e1 e2 : option js_value) (s : PageState) :
  updateTutorialStatus has_window name st2 e2
    (updateTutorialStatus has_window name st1 e1 s)
  = updateTutorialStatus has_window name st2 e2 s
  /\ (other <> name ->
      updateTutorialStatus has_window name st1 e1
        (updateTutorialStatus has_window other st2 e2 s)
      = updateTutorialStatus has_window other st2 e2
          (updateTutorialStatus has_window name st1 e1 s)).
Proof.
  unfold updateTutorialStatus. destruct has_window; cbn [negb]; [|auto].
  cbn [tutorialStatus cells console]. split.
  - rewrite insert_insert_eq. reflexivity.
  - intros Hne. rewrite insert_insert_ne by congruence. reflexivity.
Qed.

Lemma X16_updates_compose_witness :
  updateTutorialStatus true "createMintConsume" running None
    (updateTutorialStatus true "incrementCounterContract" passed None Scenario.empty_page)
  = updateTutorialStatus true "incrementCounterContract" passed None
      (updateTutorialStatus true "createMintConsume" running None Scenario.empty_page).
Proof.
  apply (X16_updates_compose true "createMintConsume" "incrementCounterContract"
           running passed None None Scenario.empty_page).
  discriminate.
Defined.

(** X17. Running a tutorial leaves the entries of the other tutorials alone,
    provided its action does not write to the status map itself: a tutorial
    run after another one does not lose the result of the first. *)
Theorem X17_runs_do_not_interfere (has_window : bool) (name other key : string)
    (action : Async unit) (s s' : PageState) (r : Settled unit) :
  other <> name ->
  (forall s0 r0 s1, action s0 = Some (r0, s1) -> tutorialStatus s1 = tutorialStatus s0) ->
  runTutorial has_window name action (set_cell key) s = Some (r, s') ->
  status_of s' other = status_of s other.
Proof.
  intros Hne Hframe. rewrite runTutorial_unfold.
  assert (Hleft : forall (r0 : Settled unit) (s1 : PageState),
             action (updateTutorialStatus has_window name running None (set_cell key true s))
             = Some (r0, s1) ->
             status_of s1 other = status_of s other).
  { intros r0 s1 Hact. apply Hframe in Hact. unfold status_of at 1. rewrite Hact.
    fold (status_of (updateTutorialStatus has_window name running None (set_cell key true s))
            other).
    rewrite status_of_update_ne by exact Hne. reflexivity. }
  destruct (action _) as [[[[]|[v|raised]] s1]|] eqn:Hact; intros H;
    [| | |discriminate H]; injection H as <- <-;
    rewrite status_of_set_cell, ?status_of_update_ne by exact Hne;
    change (status_of (console_error ?l ?e ?s0) other) with (status_of s0 other);
    eapply Hleft; reflexivity.
Qed.

Lemma X17_runs_do_not_interfere_witness :
  exists r s',
    runTutorial true "multiSendWithDelegatedProver" Scenario.fulfils
      (set_cell "isMultiSendNotes")
      (updateTutorialStatus true "createMintConsume" passed None Scenario.empty_page)
    = Some (r, s')
    /\ status_of s' "createMintConsume" = Some {| state := passed; error := None |}.
Proof.
  destruct (runTutorial true "multiSendWithDelegatedProver" Scenario.fulfils
              (set_cell "isMultiSendNotes")
              (updateTutorialStatus true "createMintConsume" passed None
                 Scenario.empty_page)) as [[r s']|] eqn:Hrun; [|discriminate Hrun].
  exists r, s'. split; [reflexivity|].
  rewrite (X17_runs_do_not_interfere true "multiSendWithDelegatedProver"
             "createMintConsume" "isMultiSendNotes" Scenario.fulfils
             (updateTutorialStatus true "createMintConsume" passed None Scenario.empty_page)
             s' r).
  - apply status_of_update_eq.
  - discriminate.
  - intros s0 r0 s1 H. injection H as _ <-. reflexivity.
  - exact Hrun.
Defined.

(** X18. A button reads [Working...] from the moment its handler starts,
    the action included, and shows its title again once the handler has
    settled, whatever the outcome of the tutorial. *)
Theorem X18_working_label (has_window : bool) (name key title : string)
    (action : Async unit) (s : PageState) :
  label (updateTutorialStatus has_window name running None (set_cell key true s)) key title
  = "Working..."
  /\ forall r s',
       runTutorial has_window name action (set_cell key) s = Some (r, s') ->
       label s' key title = title.
Proof.
  split.
  - unfold label.
    replace (cells (updateTutorialStatus has_window name running None (set_cell key true s)))
      with (cells (set_cell key true s)) by (destruct has_window; reflexivity).
    rewrite cells_set_cell. reflexivity.
  - intros r s'. rewrite runTutorial_unfold.
    destruct (action _) as [[[[]|[v|raised]] s1]|]; intros H; [| | |discriminate H];
      injection H as <- <-; unfold label; rewrite cells_set_cell; reflexivity.
Qed.

Lemma X18_working_label_witness :
  exists r s',
    runTutorial true "createMintConsume" (Scenario.rejects (JsOther true "boom"))
      (set_cell "isCreatingNotes") Home_initial = Some (r, s')
    /\ label s' "isCreatingNotes" "Tutorial #1: Create, Mint, Consume Notes"
       = "Tutorial #1: Create, Mint, Consume Notes".
Proof.
  destruct (runTutorial true "createMintConsume" (Scenario.rejects (JsOther true "boom"))
              (set_cell "isCreatingNotes") Home_initial) as [[r s']|] eqn:Hrun;
    [|discriminate Hrun].
  exists r, s'. split; [reflexivity|].
  destruct (X18_working_label true "createMintConsume" "isCreatingNotes"
              "Tutorial #1: Create, Mint, Consume Notes"
              (Scenario.rejects (JsOther true "boom")) Home_initial) as (_ & Hend).
  eapply Hend. exact Hrun.
Defined.

(** X22. How [runTutorial] settles.  Whenever it settles, the cell behind
    [setIsRunning] holds [false].  When the action is fulfilled the call is
    fulfilled, with the status [passed] in a browser.  When the action
    rejects with a value whose text can be computed, the call is fulfilled
    after [console.error] was given the label of the tutorial and the value,
    with the status [failed] and that text in a browser.  When the text
    cannot be computed, the value is logged all the same, nothing is written
    to the status map, and in a browser the call rejects with what the
    conversion threw.  The call stays pending exactly when the action
    does. *)
Theorem X22_runTutorial_outcomes (has_window : bool) (name key : string)
    (action : Async unit) (s : PageState) :
  (forall r s', runTutorial has_window name action (set_cell key) s = Some (r, s') ->
     cells s' !! key = Some false)
  /\ (forall s1,
        action (updateTutorialStatus has_window name running None (set_cell key true s))
        = Some (Fulfilled tt, s1) ->
        exists s',
          runTutorial has_window name action (set_cell key) s = Some (Fulfilled tt, s')
          /\ console s' = console s1
          /\ (has_window = true ->
              status_of s' name = Some {| state := passed; error := None |}))
  /\ (forall v s1,
        action (updateTutorialStatus has_window name running None (set_cell key true s))
        = Some (Rejected (Plain v), s1) ->
        exists s',
          runTutorial has_window name action (set_cell key) s = Some (Fulfilled tt, s')
          /\ console s' = console s1 ++ [ ("[tutorial:" +:+ name +:+ "]", Plain v) ]
          /\ (has_window = true ->
              status_of s' name
              = Some {| state := failed; error := error_text (Some v) |}))
  /\ (forall raised s1,
        action (updateTutorialStatus has_window name running None (set_cell key true s))
        = Some (Rejected (Unprintable raised), s1) ->
        exists s',
          runTutorial has_window name action (set_cell key) s
          = Some (if has_window then Rejected raised else Fulfilled tt, s')
          /\ console s'
             = console s1 ++ [ ("[tutorial:" +:+ name +:+ "]", Unprintable raised) ]
          /\ tutorialStatus s' = tutorialStatus s1)
  /\ (runTutorial has_window name action (set_cell key) s = None <->
      action (updateTutorialStatus has_window name running None (set_cell key true s))
      = None).
Proof.
  rewrite runTutorial_unfold.
  destruct (action _) as [[[[]|[v|raised]] s1]|] eqn:Hact.
  - split; [intros r s' H; injection H as <- <-; apply cells_set_cell|].
    split.
    { intros s1' H. injection H as <-. eexists. split; [reflexivity|].
      split; [destruct has_window; reflexivity|].
      intros ->. rewrite status_of_set_cell. apply status_of_update_eq. }
    split; [intros v s1' H; discriminate H|].
    split; [intros raised s1' H; discriminate H|]. split; discriminate.
  - split; [intros r s' H; injection H as <- <-; apply cells_set_cell|].
    split; [intros s1' H; discriminate H|].
    split.
    { intros v' s1' H. injection H as <- <-. eexists. split; [reflexivity|].
      split; [destruct has_window; reflexivity|].
      intros ->. rewrite status_of_set_cell. apply status_of_update_eq. }
    split; [intros raised s1' H; discriminate H|]. split; discriminate.
  - split; [intros r s' H; injection H as <- <-; apply cells_set_cell|].
    split; [intros s1' H; discriminate H|].
    split; [intros v s1' H; discriminate H|].
    split.
    { intros raised' s1' H. injection H as <- <-. eexists. split; [reflexivity|].
      split; reflexivity. }
    split; discriminate.
  - split; [intros r s' H; discriminate H|].
    split; [intros s1' H; discriminate H|].
    split; [intros v s1' H; discriminate H|].
    split; [intros raised s1' H; discriminate H|]. split; reflexivity.
Qed.

Lemma X22_runTutorial_outcomes_witness :
  exists s',
    runTutorial true "createMintConsume"
      (Scenario.rejects (JsError "Error" "rpc unreachable"))
      (set_cell "isCreatingNotes") Scenario.empty_page
    = Some (Fulfilled tt, s')
    /\ status_of s' "createMintConsume"
       = Some {| state := failed; error := Some "Error: rpc unreachable" |}
    /\ cells s' !! "isCreatingNotes" = Some false.
Proof.
  destruct (X22_runTutorial_outcomes true "createMintConsume" "isCreatingNotes"
              (Scenario.rejects (JsError "Error" "rpc unreachable")) Scenario.empty_page)
    as (Hcell & _ & Hrej & _).
  destruct (Hrej (JsError "Error" "rpc unreachable")
              (updateTutorialStatus true "createMintConsume" running None
                 (set_cell "isCreatingNotes" true Scenario.empty_page)))
    as (s' & Hrun & _ & Hst).
  - reflexivity.
  - exists s'. split; [exact Hrun|]. split.
    + apply Hst. reflexivity.
    + eapply Hcell. exact Hrun.
Defined.

(** ** The Playwright test *)

(** The test's reading of the page only depends on the entry of its
    tutorial. *)
Lemma settled_status (s s' : PageState) (nm : string) :
  status_of s' nm = status_of s nm -> TutorialTest.settled s' nm = TutorialTest.settled s nm.
Proof. unfold TutorialTest.settled. intros ->. reflexivity. Qed.

Lemma verdict_status (events : list TutorialTest.BrowserEvent) (s s' : PageState)
    (nm : string) :
  status_of s' nm = status_of s nm ->
  TutorialTest.verdict events nm s' = TutorialTest.verdict events nm s.
Proof. unfold TutorialTest.verdict. intros ->. reflexivity. Qed.

Lemma test_after_click (lib : Tutorials) (events : list TutorialTest.BrowserEvent)
    (nm testid key : string) (action : Async unit) :
  onClick true lib testid = Some (runTutorial true nm action (set_cell key)) ->
  TutorialTest.runTutorial lib events nm testid
  = match action (updateTutorialStatus true nm running None (set_cell key true Home_initial)) with
    | None => TutorialTest.TimedOut
    | Some (Fulfilled _, _) =>
        if (0 <? List.length (TutorialTest.consoleErrors events))%nat
        then TutorialTest.Thrown (TutorialTest.console_report events nm)
        else TutorialTest.Passed
    | Some (Rejected (Plain v), _) =>
        if (0 <? List.length (TutorialTest.consoleErrors events))%nat
        then TutorialTest.Thrown (TutorialTest.console_report events nm)
        else TutorialTest.Thrown (TutorialTest.failure_report nm (error_text (Some v)))
    | Some (Rejected (Unprintable _), s1) =>
        if TutorialTest.settled s1 nm then TutorialTest.verdict events nm s1
        else TutorialTest.TimedOut
    end.
Proof.
  intros Hclick. unfold TutorialTest.runTutorial. rewrite Hclick, runTutorial_unfold.
  destruct (action _) as [[[[]|[v|raised]] s1]|]; [| | |reflexivity].
  - unfold TutorialTest.settled, TutorialTest.verdict.
    rewrite status_of_set_cell, status_of_update_eq. reflexivity.
  - unfold TutorialTest.settled, TutorialTest.verdict.
    rewrite status_of_set_cell, status_of_update_eq. reflexivity.
  - rewrite (settled_status s1), (verdict_status events s1) by reflexivity. reflexivity.
Qed.

(** Every tutorial of the test's list has its button, wired to the imported
    function of the same name. *)
Lemma tutorials_wired (lib : Tutorials) (t : TutorialTest.Tutorial) :
  In t TutorialTest.tutorials ->
  onClick true lib (TutorialTest.testId t)
  = Some (runTutorial true (TutorialTest.name t)
            (TutorialTest.action_of lib (TutorialTest.name t))
            (set_cell (TutorialTest.cell_of (TutorialTest.name t)))).
Proof.
  intros Hin. unfold TutorialTest.tutorials in Hin. simpl in Hin.
  destruct Hin as [<-|[<-|[<-|[<-|[<-|[]]]]]]; reflexivity.
Qed.

(** The entry of a tutorial is [running] when its action is invoked, and
    stays so when the action leaves the status map alone. *)
Lemma started_running (nm : string) :
  status_of (TutorialTest.started nm) nm = Some {| state := running; error := None |}.
Proof. unfold TutorialTest.started. apply status_of_update_eq. Qed.

Lemma not_settled_after (nm : string) (action : Async unit) (r : Settled unit)
    (s1 : PageState) :
  (forall s0 r0 s2, action s0 = Some (r0, s2) -> tutorialStatus s2 = tutorialStatus s0) ->
  action (TutorialTest.started nm) = Some (r, s1) ->
  TutorialTest.settled s1 nm = false.
Proof.
  intros Hframe Hact. apply Hframe in Hact.
  unfold TutorialTest.settled, status_of. rewrite Hact.
  fold (status_of (TutorialTest.started nm) nm). rewrite started_running. reflexivity.
Qed.

(** X19. For each tutorial of its list whose imported function leaves the
    status map alone, the test passes exactly when that function is
    fulfilled and the listeners heard no console error or page error; it
    times out exactly when the function never settles, or rejects with a
    value whose text the page cannot compute, in which case the entry stays
    [running].  Whatever the function does, the two [expect]s of the test
    never fail. *)
Theorem X19_test_outcome (lib : Tutorials) (events : list TutorialTest.BrowserEvent)
    (t : TutorialTest.Tutorial) :
  In t TutorialTest.tutorials ->
  ((forall s0 r0 s1,
      TutorialTest.action_of lib (TutorialTest.name t) s0 = Some (r0, s1) ->
      tutorialStatus s1 = tutorialStatus s0) ->
   (TutorialTest.runTutorial lib events (TutorialTest.name t) (TutorialTest.testId t)
    = TutorialTest.Passed
    <-> (exists s1, TutorialTest.action_of lib (TutorialTest.name t)
                      (TutorialTest.started (TutorialTest.name t))
                    = Some (Fulfilled tt, s1))
        /\ TutorialTest.consoleErrors events = [])
   /\ (TutorialTest.runTutorial lib events (TutorialTest.name t) (TutorialTest.testId t)
       = TutorialTest.TimedOut
       <-> TutorialTest.action_of lib (TutorialTest.name t)
             (TutorialTest.started (TutorialTest.name t)) = None
           \/ exists raised s1,
                TutorialTest.action_of lib (TutorialTest.name t)
                  (TutorialTest.started (TutorialTest.name t))
                = Some (Rejected (Unprintable raised), s1)))
  /\ (forall matcher,
        TutorialTest.runTutorial lib events (TutorialTest.name t) (TutorialTest.testId t)
        <> TutorialTest.ExpectFailed matcher).
Proof.
  intros Hin.
  rewrite (test_after_click lib events _ _ _ _ (tutorials_wired lib t Hin)).
  fold (TutorialTest.started (TutorialTest.name t)).
  split.
  - intros Hframe.
    destruct (TutorialTest.action_of lib (TutorialTest.name t)
                (TutorialTest.started (TutorialTest.name t)))
      as [[[[]|[v|raised]] s1]|] eqn:Hact.
    + destruct (TutorialTest.consoleErrors events) as [|x xs];
        cbn [List.length Nat.ltb Nat.leb]; split; split;
        try (intros H; discriminate H).
      * intros _. split; [eexists; reflexivity|reflexivity].
      * intros _. reflexivity.
      * intros [H|(raised' & s1' & H)]; discriminate H.
      * intros [_ H]. discriminate H.
      * intros [H|(raised' & s1' & H)]; discriminate H.
    + destruct (0 <? _)%nat; split; split;
        try (intros H; discriminate H).
      * intros [[s1' H] _]. discriminate H.
      * intros [H|(raised' & s1' & H)]; discriminate H.
      * intros [[s1' H] _]. discriminate H.
      * intros [H|(raised' & s1' & H)]; discriminate H.
    + rewrite (not_settled_after _ _ _ _ Hframe Hact). split; split.
      * intros H. discriminate H.
      * intros [[s1' H] _]. discriminate H.
      * intros _. right. eauto.
      * intros _. reflexivity.
    + split; split.
      * intros H. discriminate H.
      * intros [[s1' H] _]. discriminate H.
      * intros _. left. reflexivity.
      * intros _. reflexivity.
  - intros matcher.
    destruct (TutorialTest.action_of lib (TutorialTest.name t)
                (TutorialTest.started (TutorialTest.name t))) as [[[[]|[v|raised]] s1]|];
      try (destruct (0 <? _)%nat; discriminate); try discriminate.
    unfold TutorialTest.settled, TutorialTest.verdict.
    destruct (status_of s1 (TutorialTest.name t)) as [[[| |] err]|]; cbn [state];
      try discriminate; destruct (0 <? _)%nat; discriminate.
Qed.

Lemma X19_test_outcome_witness :
  TutorialTest.runTutorial
    {| createMintConsume := Scenario.fulfils;
       multiSendWithDelegatedProver := Scenario.fulfils;
       incrementCounterContract := Scenario.fulfils;
       unauthenticatedNoteTransfer := Scenario.fulfils;
       foreignProcedureInvocation := Scenario.fulfils |}
    [ TutorialTest.ConsoleMessage "log" "Latest block: 42" ]
    "incrementCounterContract" "tutorial-incrementCounterContract"
  = TutorialTest.Passed.
Proof.
  destruct (X19_test_outcome
              {| createMintConsume := Scenario.fulfils;
                 multiSendWithDelegatedProver := Scenario.fulfils;
                 incrementCounterContract := Scenario.fulfils;
                 unauthenticatedNoteTransfer := Scenario.fulfils;
                 foreignProcedureInvocation := Scenario.fulfils |}
              [ TutorialTest.ConsoleMessage "log" "Latest block: 42" ]
              {| TutorialTest.name := "incrementCounterContract";
                 TutorialTest.testId := "tutorial-incrementCounterContract" |})
    as (Hframed & _).
  - right. right. left. reflexivity.
  - destruct Hframed as ([_ Hpass] & _).
    + intros s0 r0 s1 H. injection H as _ <-. reflexivity.
    + apply Hpass. split; [eexists; reflexivity|reflexivity].
Defined.

Lemma heard_errors (render : string -> thrown -> string) (s : PageState)
    (events : list TutorialTest.BrowserEvent) :
  console s <> [] ->
  (forall ev, In ev (TutorialTest.heard render s) -> In ev events) ->
  TutorialTest.consoleErrors events <> [].
Proof.
  intros Hne Hsub. destruct (console s) as [|[lbl e] rest] eqn:Hc; [contradiction|].
  assert (Hin : In (TutorialTest.ConsoleMessage "error" (render lbl e)) events).
  { apply Hsub. unfold TutorialTest.heard. rewrite Hc. left. reflexivity. }
  clear -Hin. induction events as [|ev events IH]; [destruct Hin|].
  destruct Hin as [->|Hin]; [discriminate|].
  unfold TutorialTest.consoleErrors. cbn [List.flat_map]. intros Hnil.
  apply List.app_eq_nil in Hnil as [_ Hnil]. exact (IH Hin Hnil).
Qed.

(** X20. When the imported function of a tutorial of the list rejects with
    a value whose text the page can compute, the handler of its button is
    still fulfilled, after a [console.error] call of the page; a test that
    hears the console errors of the page then fails with the report of the
    console errors, and never with the report naming the failed tutorial.
    When the function rejects with a value whose text cannot be computed,
    the handler rejects, after the same [console.error] call, and leaves the
    entry of the tutorial as the function left it; the test then times out
    unless the function itself wrote [passed] or [failed]. *)
Theorem X20_rejection_reported_as_console_error (lib : Tutorials)
    (render : string -> thrown -> string)
    (events : list TutorialTest.BrowserEvent) (t : TutorialTest.Tutorial) :
  In t TutorialTest.tutorials ->
  (forall (v : js_value) (s1 : PageState),
     TutorialTest.action_of lib (TutorialTest.name t)
       (TutorialTest.started (TutorialTest.name t)) = Some (Rejected (Plain v), s1) ->
     exists (handler : Async unit) (s' : PageState),
       onClick true lib (TutorialTest.testId t) = Some handler
       /\ handler Home_initial = Some (Fulfilled tt, s')
       /\ console s'
          = console s1 ++ [ ("[tutorial:" +:+ TutorialTest.name t +:+ "]", Plain v) ]
       /\ ((forall ev, In ev (TutorialTest.heard render s') -> In ev events) ->
           TutorialTest.runTutorial lib events (TutorialTest.name t) (TutorialTest.testId t)
           = TutorialTest.Thrown
               (TutorialTest.console_report events (TutorialTest.name t))))
  /\ (forall (raised : thrown) (s1 : PageState),
        TutorialTest.action_of lib (TutorialTest.name t)
          (TutorialTest.started (TutorialTest.name t))
        = Some (Rejected (Unprintable raised), s1) ->
        exists (handler : Async unit) (s' : PageState),
          onClick true lib (TutorialTest.testId t) = Some handler
          /\ handler Home_initial = Some (Rejected raised, s')
          /\ console s'
             = console s1
               ++ [ ("[tutorial:" +:+ TutorialTest.name t +:+ "]", Unprintable raised) ]
          /\ status_of s' (TutorialTest.name t) = status_of s1 (TutorialTest.name t)
          /\ (TutorialTest.settled s1 (TutorialTest.name t) = false ->
              TutorialTest.runTutorial lib events (TutorialTest.name t)
                (TutorialTest.testId t)
              = TutorialTest.TimedOut)).
Proof.
  intros Hin.
  pose proof (tutorials_wired lib t Hin) as Hclick.
  split.
  - intros v s1 Hrej.
    eexists. eexists. split; [exact Hclick|].
    rewrite runTutorial_unfold.
    fold (TutorialTest.started (TutorialTest.name t)). rewrite Hrej.
    split; [reflexivity|]. split; [reflexivity|].
    intros Hheard.
    rewrite (test_after_click lib events _ _ _ _ Hclick).
    fold (TutorialTest.started (TutorialTest.name t)). rewrite Hrej.
    assert (Herr : TutorialTest.consoleErrors events <> []).
    { eapply heard_errors; [|exact Hheard]. simpl. intros Hnil.
      apply List.app_eq_nil in Hnil as [_ Hnil]. discriminate Hnil. }
    destruct (TutorialTest.consoleErrors events); [contradiction|reflexivity].
  - intros raised s1 Hrej.
    eexists. eexists. split; [exact Hclick|].
    rewrite runTutorial_unfold.
    fold (TutorialTest.started (TutorialTest.name t)). rewrite Hrej.
    split; [reflexivity|]. split; [reflexivity|]. split; [reflexivity|].
    intros Hrunning.
    rewrite (test_after_click lib events _ _ _ _ Hclick).
    fold (TutorialTest.started (TutorialTest.name t)). rewrite Hrej, Hrunning.
    reflexivity.
Qed.

Lemma X20_rejection_reported_as_console_error_witness :
  TutorialTest.runTutorial
    {| createMintConsume := Scenario.rejects (JsError "Error" "rpc unreachable");
       multiSendWithDelegatedProver := Scenario.fulfils;
       incrementCounterContract := Scenario.fulfils;
       unauthenticatedNoteTransfer := Scenario.fulfils;
       foreignProcedureInvocation := Scenario.fulfils |}
    [ TutorialTest.ConsoleMessage "error" "[tutorial:createMintConsume] Error" ]
    "createMintConsume" "tutorial-createMintConsume"
  = TutorialTest.Thrown
      (TutorialTest.console_report
         [ TutorialTest.ConsoleMessage "error" "[tutorial:createMintConsume] Error" ]
         "createMintConsume").
Proof.
  destruct (X20_rejection_reported_as_console_error
              {| createMintConsume := Scenario.rejects (JsError "Error" "rpc unreachable");
                 multiSendWithDelegatedProver := Scenario.fulfils;
                 incrementCounterContract := Scenario.fulfils;
                 unauthenticatedNoteTransfer := Scenario.fulfils;
                 foreignProcedureInvocation := Scenario.fulfils |}
              (fun lbl _ => lbl +:+ " Error")
              [ TutorialTest.ConsoleMessage "error" "[tutorial:createMintConsume] Error" ]
              {| TutorialTest.name := "createMintConsume";
                 TutorialTest.testId := "tutorial-createMintConsume" |})
    as (Hplain & _).
  - left. reflexivity.
  - destruct (Hplain (JsError "Error" "rpc unreachable")
                (TutorialTest.started "createMintConsume"))
      as (handler & s' & Hclick & Hrun & Hconsole & Htest).
    + reflexivity.
    + apply Htest. intros ev Hev. unfold TutorialTest.heard in Hev.
      rewrite Hconsole in Hev. destruct Hev as [<-|[]]. left. reflexivity.
Defined.

End PageExtras.
